(** * Docling RAG system: ingestion and query pipeline

    A shallow embedding of the Python sources

      - Config/config.py                 ([Config], [Config_validate])
      - Processing/document_processor.py ([process_document], [process_documents])
      - Chunking/chunking_strategy.py    ([ChunkingStrategy], [chunk_document], [chunk_documents])
      - Storage/vector_store.py          ([create_vectorstore], [load_vectorstore], [add_documents], [as_retriever],
                                          [VectorStore_similarity_search])
      - Pipeline/rag_pipeline.py         ([_format_docs], [rag_chain_invoke], [RAGPipeline_query],
                                          [RAGPipeline_query_simple])
      - main.py                          ([ingest_documents], [initialize_rag], [DoclingRAGSystem_query])
      - api.py                           ([QueryRequest], [get_rag_system], [format_file_size], [get_status],
                                          [query_documents], [delete_document], [ingest_all_documents])

    The endpoints of api.py that read file contents or the clock
    ([upload_document], [list_documents], [health_check]) and the command
    loop of examples/interactive.py are not embedded.

    Python statements that mutate objects, print, touch the disk or raise
    are written in the monad [Py]: a state monad over the process state
    [World] whose result is either a value or a raised exception.  A raised
    exception keeps the state reached so far, as in Python.

    The third-party libraries the code calls (Docling's converter and
    hierarchical chunker, the embedding model, the language model) are
    variables of the section [Pipeline]; the Chroma collection is a list of
    documents kept per collection name.  Relevance scores are Python
    floats: binary64 numbers, here the kernel's primitive floats, whose
    operations round as the processor's do.  The built-in [sum] adds
    floats in one of two ways, by the version of the interpreter, which is
    a variable of the section as well.  Progress banners and statistics
    written with [print] do not influence any returned value and are left
    out; the messages that tell which branch of [ingest_documents] ran are
    kept in [stdout]. *)

From Stdlib Require Import PrimFloat.
From Stdlib Require FloatOps Uint63.
From Stdlib Require Import String Ascii List ZArith QArith Lia Bool.
From stdpp Require Import gmap strings list fin_maps.
From Stdlib Require Import DecimalString Qround Qabs Lqa.

(** ** Characters and strings that cannot be typed in a literal *)

Definition nl : string := String (ascii_of_nat 10) EmptyString.
Definition dquote : string := String (ascii_of_nat 34) EmptyString.

(** ** Exceptions and the [Py] monad *)

(** [LibraryError] stands for every other exception, one a library raises
    or an [AttributeError] on [None], with its message. *)
Inductive exn : Type :=
| ValueError (msg : string)
| HTTPException (status_code : nat) (detail : string)
| LibraryError (msg : string).

(** [str(e)] *)
Definition exn_str (e : exn) : string :=
  match e with
  | ValueError msg => msg
  | HTTPException _ detail => detail
  | LibraryError msg => msg
  end.

Inductive result (A : Type) : Type :=
| Ok (a : A)
| Raise (e : exn).
Arguments Ok {A} a.
Arguments Raise {A} e.

(** ** Data model *)

(** Values a Python metadata dictionary holds. *)
Inductive MetaVal : Type :=
| MNone
| MStr (s : string)
| MInt (z : Z)
| MBool (b : bool)
| MList (l : list string)
| MDict (d : list (string * string)).

(** [langchain_core.documents.Document] *)
Record Document : Type := mkDocument {
  page_content : string;
  doc_metadata : gmap string MetaVal
}.

(** The dictionary [chunk_data] built by [chunk_document]. *)
Record Chunk : Type := mkChunk {
  text : string;
  metadata : gmap string MetaVal
}.

(** An attribute of a Python object, as [hasattr] and the attribute
    access see it: missing, or there with a value, which may be [None]. *)
Inductive attr (A : Type) : Type :=
| Missing
| Holds (value : option A).
Arguments Missing {A}.
Arguments Holds {A} value.

(** What Docling's chunker yields: [chunk.text] and the attributes of
    [chunk.meta] the code reads.  Docling's [DocMeta] has all three, and
    its [headings] and [origin] may hold [None].  For an [origin] that is
    there, [meta_origin] holds the dictionary [origin.model_dump()]
    returns. *)
Record ChunkMeta : Type := mkChunkMeta {
  meta_doc_items : attr (list string);
  meta_headings : attr (list string);
  meta_origin : attr (list (string * string))
}.

Record BaseChunk : Type := mkBaseChunk {
  chunk_text : string;
  chunk_meta : ChunkMeta
}.

(** A parsed document: the structural elements of [DoclingDocument] the
    code looks at. *)
Record DoclingDocument : Type := mkDoclingDocument {
  texts : list string;
  tables : list string;
  pictures : list string
}.

(** Config/config.py *)
Record Config : Type := mkConfig {
  GROQ_API_KEY : string;
  EMBEDDING_MODEL : string;
  LLM_MODEL : string;
  VECTOR_DB_PATH : string;
  COLLECTION_NAME : string;
  CHUNK_SIZE : nat;
  CHUNK_OVERLAP : nat
}.

(** [RAGPipeline]: the retriever made by [as_retriever(k=10)] is bound to a
    Chroma handle and a [k]; [model_name] is the LLM's. *)
Record RAGPipeline : Type := mkRAGPipeline {
  retriever_store : string;
  retriever_k : nat;
  model_name : string
}.

(** The process state.  A Chroma handle is the name of the collection it
    was opened on; [vectorstore] is [self.vector_store.vectorstore] and
    [rag_pipeline] is [self.rag_pipeline] of the one [DoclingRAGSystem]
    instance; [rag_system] tells whether the module global of api.py has
    been set; [docs_dir] lists the file names of the [docs] folder ([None]:
    the folder does not exist); [converted] records the calls of the
    Docling converter. *)
Record World : Type := mkWorld {
  disk : gmap string (list Document);
  docs_dir : option (list string);
  stdout : list string;
  converted : list string;
  vectorstore : option string;
  rag_pipeline : option RAGPipeline;
  rag_system : bool
}.

Definition set_disk (d : gmap string (list Document)) (w : World) : World :=
  mkWorld d (docs_dir w) (stdout w) (converted w) (vectorstore w) (rag_pipeline w) (rag_system w).
Definition set_stdout (o : list string) (w : World) : World :=
  mkWorld (disk w) (docs_dir w) o (converted w) (vectorstore w) (rag_pipeline w) (rag_system w).
Definition set_converted (c : list string) (w : World) : World :=
  mkWorld (disk w) (docs_dir w) (stdout w) c (vectorstore w) (rag_pipeline w) (rag_system w).
Definition set_vectorstore (v : option string) (w : World) : World :=
  mkWorld (disk w) (docs_dir w) (stdout w) (converted w) v (rag_pipeline w) (rag_system w).
Definition set_rag_pipeline (p : option RAGPipeline) (w : World) : World :=
  mkWorld (disk w) (docs_dir w) (stdout w) (converted w) (vectorstore w) p (rag_system w).
Definition set_rag_system (b : bool) (w : World) : World :=
  mkWorld (disk w) (docs_dir w) (stdout w) (converted w) (vectorstore w) (rag_pipeline w) b.

Definition Py (A : Type) : Type := World -> World * result A.

Definition ret {A} (a : A) : Py A := fun w => (w, Ok a).
Definition raise {A} (e : exn) : Py A := fun w => (w, Raise e).
Definition bind {A B} (m : Py A) (k : A -> Py B) : Py B :=
  fun w =>
    match m w with
    | (w', Ok a) => k a w'
    | (w', Raise e) => (w', Raise e)
    end.

(** [try: body except <filter>: handler]; an exception the filter does not
    select propagates. *)
Definition try_except {A} (body : Py A) (catches : exn -> bool) (handler : exn -> Py A) : Py A :=
  fun w =>
    match body w with
    | (w', Ok a) => (w', Ok a)
    | (w', Raise e) => if catches e then handler e w' else (w', Raise e)
    end.

Definition get : Py World := fun w => (w, Ok w).
Definition modify (f : World -> World) : Py unit := fun w => (f w, Ok tt).
Definition lift_result {A} (r : result A) : Py A := fun w => (w, r).

Declare Scope py_scope.
Delimit Scope py_scope with py.
Notation "x <- c1 ;; c2" := (bind c1 (fun x => c2))
  (at level 100, c1 at next level, right associativity) : py_scope.
Notation "c1 ;;; c2" := (bind c1 (fun _ => c2))
  (at level 100, right associativity) : py_scope.
Open Scope py_scope.

Definition print (s : string) : Py unit :=
  modify (fun w => set_stdout (stdout w ++ [s]) w).

(** A [for] loop that collects one result per element and stops at the
    first exception. *)
Fixpoint for_each {A B} (f : A -> Py B) (l : list A) : Py (list B) :=
  match l with
  | [] => ret []
  | x :: l' => y <- f x ;; ys <- for_each f l' ;; ret (y :: ys)
  end.

(** ** Query results *)

(** One entry of [response["sources"]]. *)
Record SourceInfo : Type := mkSourceInfo {
  source_number : nat;
  source_text : string;
  source_metadata : gmap string MetaVal;
  relevance_score : float
}.

(** [response["metrics"]] *)
Record Metrics : Type := mkMetrics {
  retrieved_chunks : nat;
  average_relevance : float;
  answer_length : nat
}.

(** The dictionary [RAGPipeline.query] returns. *)
Record Response : Type := mkResponse {
  question : string;
  answer : string;
  sources : list SourceInfo;
  metrics : Metrics
}.

(** api.py: the request and response models of [POST /query]. *)
Record QueryRequest : Type := mkQueryRequest {
  request_question : string;
  top_k : option Z
}.

Record QueryResponse : Type := mkQueryResponse {
  response_question : string;
  response_answer : string;
  response_sources : list SourceInfo;
  response_metrics : Metrics
}.

(** Parsing a request body into [QueryRequest], whose field is declared
    [top_k: Optional[int] = 10].  The body either leaves [top_k] out
    ([None] here), or gives it, possibly as [null]. *)
Definition QueryRequest_parse (body_question : string) (body_top_k : option (option Z))
  : QueryRequest :=
  mkQueryRequest body_question
    (match body_top_k with
     | None => Some 10%Z
     | Some k => k
     end).

(** ** Strings and paths *)

(** [name.endswith(ext)], what [glob("*" + ext)] tests on a file name. *)
Definition ends_with (ext name : string) : bool :=
  (String.length ext <=? String.length name)%nat &&
  String.eqb (substring (String.length name - String.length ext) (String.length ext) name) ext.

(** [fnmatch(name, "*.*")]: the name contains a dot. *)
Fixpoint contains_dot (name : string) : bool :=
  match name with
  | EmptyString => false
  | String c rest => Ascii.eqb c "."%char || contains_dot rest
  end.

(** [docs_folder.glob(pattern)] for the two kinds of pattern the code
    uses; the results are paths below [docs]. *)
Definition glob_ext (names : list string) (ext : string) : list string :=
  map (fun n => "docs/" +:+ n) (filter (fun n => ends_with ext n = true) names).

Definition glob_any (names : list string) : list string :=
  map (fun n => "docs/" +:+ n) (filter (fun n => contains_dot n = true) names).

Definition supported_extensions : list string :=
  [".pdf"; ".docx"; ".xlsx"; ".pptx"; ".ppt";
   ".md"; ".html"; ".htm"; ".csv";
   ".png"; ".jpg"; ".jpeg"; ".tiff"; ".tif"; ".bmp"; ".webp"].

(** ** Chunking/chunking_strategy.py *)

(** [ChunkingStrategy.__init__] builds the chunker from the tokenizer name
    and [max_tokens=chunk_size]; [chunk_overlap] is an argument of the
    constructor and is not stored or passed on. *)
Record ChunkingStrategy : Type := mkChunkingStrategy {
  chunker_max_tokens : nat
}.

Definition ChunkingStrategy_init (chunk_size chunk_overlap : nat) : ChunkingStrategy :=
  mkChunkingStrategy chunk_size.

(** [meta.name if hasattr(meta, name) else empty] as a metadata value. *)
Definition attr_or {A} (wrap : A -> MetaVal) (empty : A) (a : attr A) : MetaVal :=
  match a with
  | Missing => wrap empty
  | Holds None => MNone
  | Holds (Some value) => wrap value
  end.

(** [meta.origin.model_dump() if hasattr(meta, "origin") else {}]: the
    call on [None] raises [AttributeError]. *)
Definition origin_dump (origin : attr (list (string * string))) : result MetaVal :=
  match origin with
  | Missing => Ok (MDict [])
  | Holds None => Raise (LibraryError "'NoneType' object has no attribute 'model_dump'")
  | Holds (Some fields) => Ok (MDict fields)
  end.

(** The dictionary [chunk_data] that [chunk_document] builds per chunk. *)
Definition chunk_data (chunk : BaseChunk) : result Chunk :=
  let meta := chunk_meta chunk in
  match origin_dump (meta_origin meta) with
  | Ok origin =>
      Ok (mkChunk (chunk_text chunk)
            (<["doc_items" := attr_or MList [] (meta_doc_items meta)]>
             (<["headings" := attr_or MList [] (meta_headings meta)]>
              (<["origin" := origin]> ∅))))
  | Raise e => Raise e
  end.

(** ** Storage/vector_store.py: documents and metadata *)

Definition to_documents (chunks : list Chunk) : list Document :=
  map (fun chunk => mkDocument (text chunk) (metadata chunk)) chunks.

(** langchain's [filter_complex_metadata] keeps the values that are
    [str], [bool], [int] or [float]. *)
Definition is_primitive (v : MetaVal) : bool :=
  match v with
  | MStr _ | MInt _ | MBool _ => true
  | MNone | MList _ | MDict _ => false
  end.

Definition filter_complex_metadata (documents : list Document) : list Document :=
  map (fun d => mkDocument (page_content d)
                  (filter (fun kv => is_primitive (snd kv) = true) (doc_metadata d)))
      documents.

(** ** Ranking by relevance *)

(** Insertion into a list sorted by descending score; an entry goes after
    the entries with an equal score, so the sort is stable. *)
Fixpoint insert_ranked {A} (x : A * float) (l : list (A * float)) : list (A * float) :=
  match l with
  | [] => [x]
  | y :: l' => if (snd x <=? snd y)%float then y :: insert_ranked x l' else x :: y :: l'
  end.

Definition sort_ranked {A} (l : list (A * float)) : list (A * float) :=
  fold_left (fun acc x => insert_ranked x acc) l [].

(** ** Pipeline/rag_pipeline.py: the pure parts *)

Definition _format_docs (docs : list Document) : string :=
  String.concat (nl +:+ nl) (map page_content docs).

(** [self.prompt]: the template with [{context}] and [{question}] filled in. *)
Definition prompt_format (context question : string) : string :=
  "You are an AI assistant that answers questions based on the provided context." +:+ nl +:+ nl +:+
  "Use the following pieces of context to answer the question at the end. The context comes from various documents including PDFs, Word documents, images, and other files." +:+ nl +:+ nl +:+
  "If you can find relevant information in the context, provide a comprehensive answer. If you cannot find the answer in the context, say " +:+ dquote +:+
  "I don't have enough information in the provided documents to answer this question." +:+ dquote +:+ nl +:+ nl +:+
  "Context:" +:+ nl +:+ context +:+ nl +:+ nl +:+
  "Question: " +:+ question +:+ nl +:+ nl +:+
  "Answer:".

(** How the interpreter's built-in [sum] adds floats.  CPython up to 3.11
    adds each item to the running total; from 3.12 on it also carries
    Neumaier's compensation term and adds it to the total at the end. *)
Inductive Summation : Type :=
| Plain
| Compensated.

(** One step of the compensated loop: the new total, and the compensation
    with the rounding error of the addition added to it. *)
Definition neumaier_step (acc : float * float) (x : float) : float * float :=
  let (total, c) := acc in
  let t := (total + x)%float in
  (t, if (abs x <=? abs total)%float
      then (c + ((total - t) + x))%float
      else (c + ((x - t) + total))%float).

(** [sum(similarity_scores)] for a list of floats.  The start value is
    the integer 0, to which the first score is added as a float; the other
    scores are then added from the left in binary64 arithmetic. *)
Definition sum (summation : Summation) (scores : list float) : float :=
  match scores with
  | [] => 0%float
  | x :: rest =>
      match summation with
      | Plain => fold_left add rest (0 + x)%float
      | Compensated =>
          let (total, c) := fold_left neumaier_step rest ((0 + x)%float, 0%float) in
          if negb (is_zero c) && is_finite c then (total + c)%float else total
      end
  end.

(** [float(n)] for the length of a list, which is far below [2^53]. *)
Definition float_of_nat (n : nat) : float :=
  of_uint63 (Uint63.of_Z (Z.of_nat n)).

(** [sum(similarity_scores) / len(similarity_scores) if similarity_scores else 0] *)
Definition avg_relevance (summation : Summation) (similarity_scores : list float) : float :=
  match similarity_scores with
  | [] => 0%float
  | _ => (sum summation similarity_scores / float_of_nat (length similarity_scores))%float
  end.

(** The preview of a chunk in [source_info["text"]]. *)
Definition preview (page : string) : string :=
  if (300 <? String.length page)%nat
  then substring 0 300 page +:+ "..."
  else page.

(** [enumerate(source_docs_with_scores, 1)] and the dictionary built per
    entry. *)
Definition source_info (i : nat) (hit : Document * float) : SourceInfo :=
  mkSourceInfo (S i) (preview (page_content (fst hit))) (doc_metadata (fst hit)) (snd hit).

(** Lines 89-144 of [RAGPipeline.query], after retrieval and generation. *)
Definition format_response (summation : Summation) (question answer : string)
    (source_docs_with_scores : list (Document * float)) : Response :=
  let source_docs := map fst source_docs_with_scores in
  let similarity_scores := map snd source_docs_with_scores in
  mkResponse question answer
    (imap source_info source_docs_with_scores)
    (mkMetrics (length source_docs) (avg_relevance summation similarity_scores)
               (String.length answer)).

(** ** api.py: the pure parts *)

(** [GET /status] *)
Record StatusResponse : Type := mkStatusResponse {
  status : string;
  documents_count : nat;
  chunks_count : option nat;
  status_model : string;
  status_message : string
}.

(** The dictionaries [POST /ingest-all] and [DELETE /documents/{filename}]
    return. *)
Record IngestAllResponse : Type := mkIngestAllResponse {
  ingest_all_message : string;
  ingest_all_status : string
}.

Record DeleteResponse : Type := mkDeleteResponse {
  delete_message : string;
  delete_filename : string
}.

(** [str(n)] for a natural number. *)
Definition decimal (n : N) : string :=
  NilZero.string_of_uint (N.to_uint n).

(** Rounding to the nearest integer, a tie to the even neighbour. *)
Definition round_half_even (q : Q) : Z :=
  let f := Qfloor q in
  match Qcompare (q - inject_Z f) (1 # 2) with
  | Lt => f
  | Gt => (f + 1)%Z
  | Eq => if Z.even f then f else (f + 1)%Z
  end.

Definition two_digits (n : Z) : string :=
  (if (n <? 10)%Z then "0" else EmptyString) +:+ decimal (Z.to_N n).

(** [f"{q:.2f}"]: the number rounded to hundredths, a tie to even, with
    the sign of [q]. *)
Definition format_2f (q : Q) : string :=
  let hundredths := round_half_even (Qabs q * 100) in
  (if Qlt_le_dec q 0 then "-" else EmptyString) +:+
  decimal (Z.to_N (hundredths / 100)) +:+ "." +:+ two_digits (hundredths mod 100).

(** The loop of [format_file_size] over the units that are left. *)
Fixpoint format_file_size_from (units : list string) (size_bytes : Q) : string :=
  match units with
  | [] => format_2f size_bytes +:+ " TB"
  | unit :: rest =>
      if Qlt_le_dec size_bytes 1024
      then format_2f size_bytes +:+ " " +:+ unit
      else format_file_size_from rest (size_bytes / 1024)
  end.

(** [float(n)] for an integer that is not negative, as the comparison with
    [1024.0], the division by [1024.0] and the format [.2f] convert it:
    [n] itself when it has at most 53 significant bits, otherwise the
    nearest number with 53 significant bits, a tie to the even one.  The
    size of a file is below [2^63], far from the largest float. *)
Definition float_of_int (n : N) : Q :=
  let z := Z.of_N n in
  let e := (Z.log2 z - 52)%Z in
  if (e <=? 0)%Z then inject_Z z
  else inject_Z (round_half_even (z # Z.to_pos (2 ^ e)) * 2 ^ e).

(** [format_file_size(size_bytes)] for the size of a file.  The only
    rounding of the source's floats is the conversion of the integer: a
    division by [1024.0], a power of two, is exact on a float that is at
    least 1024, and [.2f] rounds the exact value of the float. *)
Definition format_file_size (size_bytes : N) : string :=
  format_file_size_from ["B"; "KB"; "MB"; "GB"] (float_of_int size_bytes).

(** ** The stateful code *)

Section Pipeline.

(** [Config], read from the environment when the module is imported. *)
Variable cfg : Config.

(** Docling: [file_path.stat()] followed by
    [self.converter.convert(file_path).document]; raises on a missing,
    unsupported or corrupt file. *)
Variable convert : string -> result DoclingDocument.

(** Docling: [HierarchicalChunker(tokenizer, max_tokens).chunk(document)],
    by [max_tokens]: the chunks the iterator yields, or the exception the
    iteration ends with. *)
Variable chunker_chunk : nat -> DoclingDocument -> result (list BaseChunk).

(** The interpreter the code runs on, as far as [sum] tells. *)
Variable summation : Summation.

(** Whether the embedding model answers on a text. *)
Variable embed_ok : string -> bool.

(** The relevance score of a chunk text for a query text, from the
    distance of their embeddings: a Python float. *)
Variable relevance : string -> string -> float.

(** [ChatGroq(model_name).invoke(prompt)] through [StrOutputParser]: the
    reply of the service to the one request that a query makes, or the
    exception that request ends with.  The service samples its replies
    (the pipeline sets a temperature of 0.1): a later request with the
    same prompt may get another reply, which [llm] does not tell. *)
Variable llm : string -> string -> result string.

(** *** Config/config.py *)

Definition Config_validate : Py unit :=
  if String.eqb (GROQ_API_KEY cfg) EmptyString
  then raise (ValueError "GROQ_API_KEY is required. Please set it in .env file")
  else ret tt.

(** *** Processing/document_processor.py *)

Definition process_document (file_path : string) : Py DoclingDocument :=
  modify (fun w => set_converted (converted w ++ [file_path]) w) ;;;
  doc <- lift_result (convert file_path) ;;
  ret doc.

Definition process_documents (file_paths : list string) : Py (list DoclingDocument) :=
  for_each process_document file_paths.

(** *** Chunking/chunking_strategy.py *)

Definition chunk_document (self : ChunkingStrategy) (document : DoclingDocument)
  : Py (list Chunk) :=
  chunks <- lift_result (chunker_chunk (chunker_max_tokens self) document) ;;
  for_each (fun chunk => lift_result (chunk_data chunk)) chunks.

Definition chunk_documents (self : ChunkingStrategy) (documents : list DoclingDocument)
  : Py (list Chunk) :=
  per_doc <- for_each (chunk_document self) documents ;;
  ret (concat per_doc).

(** *** Chroma, as the code uses it *)

(** [Chroma(persist_directory, embedding_function, collection_name)]
    gets the collection or creates it empty. *)
Definition Chroma_open (name : string) : Py string :=
  modify (fun w =>
    match disk w !! name with
    | Some _ => w
    | None => set_disk (<[name := []]> (disk w)) w
    end) ;;;
  ret name.

(** [handle.add_documents(documents)]: every text is embedded, then all
    are appended.  Chroma refuses an empty batch: the embedding of no text
    succeeds, and the upsert of no entry raises [ValueError], with a
    message that versions of Chroma word differently. *)
Definition Chroma_add_documents (handle : string) (documents : list Document) : Py unit :=
  if forallb (fun d => embed_ok (page_content d)) documents
  then
    match documents with
    | [] => raise (ValueError "Expected IDs to be a non-empty list, got 0 IDs")
    | _ => modify (fun w => set_disk (alter (fun l => l ++ documents) handle (disk w)) w)
    end
  else raise (LibraryError "embedding failed").

(** [Chroma.from_documents(documents, embedding, persist_directory, collection_name)] *)
Definition Chroma_from_documents (documents : list Document) (name : string) : Py string :=
  handle <- Chroma_open name ;;
  Chroma_add_documents handle documents ;;;
  ret handle.

(** [handle.similarity_search_with_relevance_scores(query, k)]: the [k]
    best entries, best first. *)
Definition similarity_search_with_relevance_scores (handle query : string) (k : nat)
  : Py (list (Document * float)) :=
  if embed_ok query
  then
    w <- get ;;
    ret (take k (sort_ranked
                   (map (fun d => (d, relevance query (page_content d)))
                        (default [] (disk w !! handle)))))
  else raise (LibraryError "embedding failed").

(** What a retriever made by [handle.as_retriever(search_kwargs={"k": k})]
    does when invoked. *)
Definition retriever_invoke (handle : string) (k : nat) (query : string) : Py (list Document) :=
  hits <- similarity_search_with_relevance_scores handle query k ;;
  ret (map fst hits).

(** *** Storage/vector_store.py *)

Definition create_vectorstore (chunks : list Chunk) : Py string :=
  let documents := filter_complex_metadata (to_documents chunks) in
  handle <- Chroma_from_documents documents (COLLECTION_NAME cfg) ;;
  modify (set_vectorstore (Some handle)) ;;;
  ret handle.

Definition load_vectorstore : Py string :=
  handle <- Chroma_open (COLLECTION_NAME cfg) ;;
  modify (set_vectorstore (Some handle)) ;;;
  ret handle.

(** [if not self.vectorstore: self.load_vectorstore()], then
    [self.vectorstore]. *)
Definition ensure_vectorstore : Py string :=
  w <- get ;;
  match vectorstore w with
  | Some handle => ret handle
  | None => load_vectorstore
  end.

Definition add_documents (chunks : list Chunk) : Py unit :=
  handle <- ensure_vectorstore ;;
  let documents := filter_complex_metadata (to_documents chunks) in
  Chroma_add_documents handle documents.

Definition as_retriever (k : nat) : Py (string * nat) :=
  handle <- ensure_vectorstore ;;
  ret (handle, k).

(** *** Pipeline/rag_pipeline.py *)

Definition RAGPipeline_init (model_name : string) : Py RAGPipeline :=
  retriever <- as_retriever 10 ;;
  ret (mkRAGPipeline (fst retriever) (snd retriever) model_name).

(** [self.rag_chain.invoke(question)]: retriever, [_format_docs], prompt,
    LLM. *)
Definition rag_chain_invoke (self : RAGPipeline) (question : string) : Py string :=
  docs <- retriever_invoke (retriever_store self) (retriever_k self) question ;;
  let context := _format_docs docs in
  lift_result (llm (model_name self) (prompt_format context question)).

Definition RAGPipeline_query (self : RAGPipeline) (question : string) : Py Response :=
  w <- get ;;
  source_docs_with_scores <-
    match vectorstore w with
    | Some handle => similarity_search_with_relevance_scores handle question 10
    | None => raise (LibraryError "'NoneType' object has no attribute 'similarity_search_with_relevance_scores'")
    end ;;
  answer <- rag_chain_invoke self question ;;
  ret (format_response summation question answer source_docs_with_scores).

(** *** main.py *)

Definition DoclingRAGSystem_init : Py unit :=
  Config_validate ;;;
  modify (set_vectorstore None) ;;;
  modify (set_rag_pipeline None).

(** Lines 68-97 of [ingest_documents]: parse, chunk, then add to the
    store or create it.  [self.chunking_strategy] is the strategy the
    constructor built from [CHUNK_SIZE] and [CHUNK_OVERLAP]. *)
Definition ingest_files (file_paths : list string) : Py unit :=
  documents <- process_documents file_paths ;;
  chunks <- chunk_documents (ChunkingStrategy_init (CHUNK_SIZE cfg) (CHUNK_OVERLAP cfg)) documents ;;
  try_except
    (load_vectorstore ;;;
     add_documents chunks ;;;
     print "Added chunks to existing vector store")
    (fun _ => true)
    (fun _ =>
       create_vectorstore chunks ;;;
       print "Created new vector store with chunks").

Definition ingest_documents (file_paths : option (list string)) : Py unit :=
  match file_paths with
  | None =>
      w <- get ;;
      match docs_dir w with
      | None =>
          print "'docs' folder not found. Please create it and add documents."
      | Some names =>
          let file_paths := flat_map (glob_ext names) supported_extensions in
          match file_paths with
          | [] =>
              print "No supported documents found in 'docs' folder" ;;;
              print ("   Supported formats: " +:+ String.concat ", " supported_extensions)
          | _ => ingest_files file_paths
          end
      end
  | Some file_paths => ingest_files file_paths
  end.

Definition initialize_rag : Py unit :=
  w <- get ;;
  match rag_pipeline w with
  | Some _ => ret tt
  | None =>
      pipeline <- RAGPipeline_init (LLM_MODEL cfg) ;;
      modify (set_rag_pipeline (Some pipeline))
  end.

(** The [verbose] branch only prints. *)
Definition DoclingRAGSystem_query (question : string) (verbose : bool) : Py Response :=
  w <- get ;;
  (match rag_pipeline w with
   | Some _ => ret tt
   | None => initialize_rag
   end) ;;;
  w <- get ;;
  match rag_pipeline w with
  | Some pipeline => RAGPipeline_query pipeline question
  | None => raise (LibraryError "'NoneType' object has no attribute 'query'")
  end.

(** *** api.py *)

Definition get_rag_system : Py unit :=
  w <- get ;;
  if rag_system w then ret tt
  else DoclingRAGSystem_init ;;; modify (set_rag_system true).

Definition query_documents (request : QueryRequest) : Py QueryResponse :=
  try_except
    (get_rag_system ;;;
     w <- get ;;
     let doc_count := length (glob_any (default [] (docs_dir w))) in
     if (doc_count =? 0)%nat
     then raise (HTTPException 400
            "No documents uploaded. Please upload documents first using /upload endpoint.")
     else
       result <- DoclingRAGSystem_query (request_question request) false ;;
       ret (mkQueryResponse (question result) (answer result)
                            (take 5 (sources result)) (metrics result)))
    (fun _ => true)
    (fun e =>
       match e with
       | HTTPException _ _ => raise e
       | _ => raise (HTTPException 500 ("Error processing query: " +:+ exn_str e))
       end).

(** *** Storage/vector_store.py and Pipeline/rag_pipeline.py: the rest *)

Definition VectorStore_similarity_search (query : string) (k : nat) : Py (list Document) :=
  handle <- ensure_vectorstore ;;
  retriever_invoke handle k query.

Definition RAGPipeline_query_simple (self : RAGPipeline) (question : string) : Py string :=
  rag_chain_invoke self question.

(** *** api.py: the other endpoints *)

Definition get_status : Py StatusResponse :=
  try_except
    (w <- get ;;
     let doc_count :=
       length (flat_map (glob_ext (default [] (docs_dir w))) supported_extensions) in
     get_rag_system ;;;
     ret (mkStatusResponse "ready" doc_count None "llama-3.3-70b-versatile"
            ("System ready with " +:+ decimal (N.of_nat doc_count) +:+ " documents")))
    (fun _ => true)
    (fun e => raise (HTTPException 500 (exn_str e))).

Definition ingest_all_documents : Py IngestAllResponse :=
  try_except
    (get_rag_system ;;;
     ingest_documents None ;;;
     ret (mkIngestAllResponse "All documents processed successfully" "complete"))
    (fun _ => true)
    (fun e => raise (HTTPException 500 (exn_str e))).

(** [DELETE /documents/{filename}]; the route gives a [filename] without
    [/].  [docs/.] and [docs/..] exist as directories, which [unlink]
    refuses. *)
Definition delete_document (filename : string) : Py DeleteResponse :=
  try_except
    (w <- get ;;
     match docs_dir w with
     | None => raise (HTTPException 404 "Document not found")
     | Some names =>
         if String.eqb filename "." || String.eqb filename ".."
         then raise (LibraryError ("[Errno 21] Is a directory: '" +:+
                      (if String.eqb filename "." then "docs" else "docs/..") +:+ "'"))
         else if existsb (String.eqb filename) names
         then
           modify (fun w => mkWorld (disk w)
                              (Some (filter (fun n => n <> filename) names))
                              (stdout w) (converted w) (vectorstore w)
                              (rag_pipeline w) (rag_system w)) ;;;
           ret (mkDeleteResponse "Document deleted successfully" filename)
         else raise (HTTPException 404 "Document not found")
     end)
    (fun _ => true)
    (fun e =>
       match e with
       | HTTPException _ _ => raise e
       | _ => raise (HTTPException 500 (exn_str e))
       end).

End Pipeline.

(** ** Definitions used to state the properties *)

(** The number a float stands for; the infinities and NaN stand for
    none. *)
Definition float_value (x : float) : option Q :=
  match FloatOps.Prim2SF x with
  | SpecFloat.S754_zero _ => Some 0%Q
  | SpecFloat.S754_finite negative m e =>
      let magnitude := (inject_Z (Z.pos m) * 2 ^ e)%Q in
      Some (if negative then (- magnitude)%Q else magnitude)
  | _ => None
  end.

(** The sum of a list of scores. *)
Fixpoint total (scores : list Q) : Q :=
  match scores with
  | [] => 0%Q
  | x :: rest => (x + total rest)%Q
  end.

(** The arithmetic mean: the sum divided by the number of scores. *)
Definition arithmetic_mean (scores : list Q) : Q :=
  (total scores / inject_Z (Z.of_nat (length scores)))%Q.

(** One value per element of a list, or the first exception. *)
Fixpoint collect {A B} (f : A -> result B) (l : list A) : result (list B) :=
  match l with
  | [] => Ok []
  | x :: rest =>
      match f x with
      | Ok y =>
          match collect f rest with
          | Ok ys => Ok (y :: ys)
          | Raise e => Raise e
          end
      | Raise e => Raise e
      end
  end.

(** Whether the [origin] of a chunk is missing or there, not [None]. *)
Definition origin_dumps (chunk : BaseChunk) : bool :=
  match meta_origin (chunk_meta chunk) with
  | Holds None => false
  | _ => true
  end.

(** The texts of [docs], each preceded by a blank line. *)
Fixpoint blank_line_before_each (docs : list Document) : string :=
  match docs with
  | [] => EmptyString
  | d :: rest => nl +:+ nl +:+ page_content d +:+ blank_line_before_each rest
  end.

(** The texts of [docs] one after the other in the order of the list, a
    blank line between two consecutive texts, every entry of the list
    written out. *)
Definition texts_separated_by_blank_line (docs : list Document) : string :=
  match docs with
  | [] => EmptyString
  | d :: rest => page_content d +:+ blank_line_before_each rest
  end.

(** The non-empty suffixes of a string, longest first. *)
Fixpoint suffixes (s : string) : list string :=
  match s with
  | EmptyString => []
  | String _ rest => s :: suffixes rest
  end.

(** Whether [next] begins with some non-empty trailing part of [prev]. *)
Definition shares_overlap (prev next : string) : bool :=
  existsb (fun s => String.prefix s next) (suffixes prev).

(** Whether a file name has one of the supported extensions. *)
Definition has_supported_extension (name : string) : bool :=
  existsb (fun ext => ends_with ext name) supported_extensions.

(** A size divided [k] times by 1024, as the loop of [format_file_size]
    does. *)
Fixpoint scaled (k : nat) (q : Q) : Q :=
  match k with
  | O => q
  | S k' => scaled k' (q / 1024)
  end.

(** The ten best entries of a collection for a question, best first. *)
Definition ten_best (relevance : string -> string -> float)
    (question : string) (collection : list Document) : list (Document * float) :=
  take 10 (sort_ranked (map (fun d => (d, relevance question (page_content d))) collection)).

(** Every open handle is on the configured collection, and the pipeline,
    once built, retrieves ten entries from that collection for the
    configured model. *)
Definition consistent (cfg : Config) (w : World) : Prop :=
  (forall handle, vectorstore w = Some handle -> handle = COLLECTION_NAME cfg) /\
  (forall pipeline, rag_pipeline w = Some pipeline ->
     pipeline = mkRAGPipeline (COLLECTION_NAME cfg) 10 (LLM_MODEL cfg)).

(** [triple I m Q]: started in a state with [I], [m] ends in a state with
    [I], raising or not, and a value it returns has [Q]. *)
Definition triple (I : World -> Prop) {A} (m : Py A) (Q : A -> Prop) : Prop :=
  forall w w' r, m w = (w', r) -> I w ->
    I w' /\ match r with Ok a => Q a | Raise _ => True end.

(** ** A small installation to run the code on *)

Module Demo.

Definition cfg : Config :=
  mkConfig "gsk_demo" "sentence-transformers/all-MiniLM-L6-v2"
           "llama-3.3-70b-versatile" "./vector_db" "docling_rag" 512 128.

(** A converter that fails on one file and reads any other file as one
    paragraph holding the path. *)
Definition convert (file_path : string) : result DoclingDocument :=
  if String.eqb file_path "docs/broken.pdf"
  then Raise (LibraryError "conversion failed")
  else Ok (mkDoclingDocument [file_path] [] []).

(** A chunker that yields one chunk per text item, as the hierarchical
    chunker does for paragraphs. *)
Definition chunker_chunk (max_tokens : nat) (document : DoclingDocument)
  : result (list BaseChunk) :=
  Ok (map (fun t => mkBaseChunk t
                      (mkChunkMeta (Holds (Some ["#/texts/0"])) (Holds None)
                                   (Holds (Some [("mimetype", "text/markdown")]))))
          (texts document)).

Definition embed_ok (_ : string) : bool := true.

(** CPython 3.11. *)
Definition summation : Summation := Plain.

(** Longer chunks score higher: a tenth per character. *)
Definition relevance (query chunk : string) : float :=
  (float_of_nat (String.length chunk) / 10)%float.

(** A language model that echoes its prompt. *)
Definition llm (model prompt : string) : result string := Ok prompt.

Definition stored (s : string) : Document := mkDocument s ∅.

Definition twelve_chunks : list Document :=
  map stored ["a"; "bb"; "ccc"; "dddd"; "e"; "ff"; "ggg"; "hhhh"; "i"; "jj"; "kkk"; "llll"].

(** Nothing ingested, nothing constructed, an empty [docs] folder. *)
Definition fresh : World :=
  mkWorld ∅ (Some []) [] [] None None false.

(** Twelve chunks in the collection and one uploaded file. *)
Definition populated : World :=
  mkWorld (<["docling_rag" := twelve_chunks]> ∅) (Some ["report.pdf"]) [] [] None None false.

(** The same, with the system constructed and the store handle open. *)
Definition opened : World :=
  mkWorld (<["docling_rag" := twelve_chunks]> ∅) (Some ["report.pdf"]) [] []
          (Some "docling_rag") None true.

(** An open store of three chunks, which score 0.3, 0.2 and 0.1. *)
Definition three_scores : World :=
  mkWorld (<["docling_rag" := map stored ["ccc"; "bb"; "a"]]> ∅) (Some ["report.pdf"]) [] []
          (Some "docling_rag") None true.

(** A [docs] folder that holds only files of other kinds. *)
Definition only_notes : World :=
  mkWorld ∅ (Some ["notes.txt"; "README"]) [] [] None None false.

Definition two_paragraphs : DoclingDocument :=
  mkDoclingDocument ["alpha"; "beta"] [] [].

Definition no_text : DoclingDocument :=
  mkDoclingDocument [] [] [].

Definition pipeline : RAGPipeline :=
  mkRAGPipeline "docling_rag" 10 "llama-3.3-70b-versatile".

(** The configuration without an API key. *)
Definition no_key : Config :=
  mkConfig EmptyString "sentence-transformers/all-MiniLM-L6-v2"
           "llama-3.3-70b-versatile" "./vector_db" "docling_rag" 512 128.

(** A [docs] folder with two documents and a file of another kind. *)
Definition three_files : World :=
  mkWorld ∅ (Some ["report.pdf"; "notes.txt"; "table.csv"]) [] [] None None false.

Definition paragraph (s : string) : BaseChunk :=
  mkBaseChunk s (mkChunkMeta (Holds (Some ["#/texts/0"])) (Holds None)
                             (Holds (Some [("mimetype", "text/markdown")]))).

(** A chunk of a document that has no origin. *)
Definition without_origin (s : string) : BaseChunk :=
  mkBaseChunk s (mkChunkMeta (Holds (Some ["#/texts/0"])) (Holds None) (Holds None)).

End Demo.

(** ** Running the monad *)

Ltac run :=
  unfold bind, ret, raise, get, modify, lift_result, try_except in *; simpl in *.

Lemma bind_Ok {A B} (m : Py A) (k : A -> Py B) w w' a :
  m w = (w', Ok a) -> bind m k w = k a w'.
Proof. intros H. unfold bind. now rewrite H. Qed.

Lemma bind_Raise {A B} (m : Py A) (k : A -> Py B) w w' e :
  m w = (w', Raise e) -> bind m k w = (w', Raise e).
Proof. intros H. unfold bind. now rewrite H. Qed.

Lemma bind_inv_Ok {A B} (m : Py A) (k : A -> Py B) w w' b :
  bind m k w = (w', Ok b) ->
  exists w1 a, m w = (w1, Ok a) /\ k a w1 = (w', Ok b).
Proof.
  unfold bind. destruct (m w) as [w1 [a|e]]; intros H.
  - exists w1, a. auto.
  - discriminate.
Qed.

(** ** Retrieval *)

Section Retrieval.

Variable embed_ok : string -> bool.
Variable relevance : string -> string -> float.

Lemma search_inv handle query k w w' hits :
  similarity_search_with_relevance_scores embed_ok relevance handle query k w = (w', Ok hits) ->
  w' = w /\
  hits = take k (sort_ranked (map (fun d => (d, relevance query (page_content d)))
                                  (default [] (disk w !! handle)))).
Proof.
  unfold similarity_search_with_relevance_scores.
  destruct (embed_ok query); run; intros H; inversion H; auto.
Qed.

Lemma search_at_most_k handle query k w w' hits :
  similarity_search_with_relevance_scores embed_ok relevance handle query k w = (w', Ok hits) ->
  (length hits <= k)%nat.
Proof.
  intros H. apply search_inv in H as [_ ->].
  rewrite length_take. lia.
Qed.

Lemma search_keeps_world handle query k w w' r :
  similarity_search_with_relevance_scores embed_ok relevance handle query k w = (w', r) ->
  w' = w.
Proof.
  unfold similarity_search_with_relevance_scores.
  destruct (embed_ok query); run; intros H; inversion H; auto.
Qed.

End Retrieval.

(** ** The query path *)

Section Query.

Variable summation : Summation.
Variable embed_ok : string -> bool.
Variable relevance : string -> string -> float.
Variable llm : string -> string -> result string.

(** What a successful [rag_chain.invoke] did. *)
Lemma rag_chain_invoke_inv self question w w' answer :
  rag_chain_invoke embed_ok relevance llm self question w = (w', Ok answer) ->
  exists hits,
    similarity_search_with_relevance_scores embed_ok relevance
      (retriever_store self) question (retriever_k self) w = (w, Ok hits) /\
    llm (model_name self) (prompt_format (_format_docs (map fst hits)) question) = Ok answer /\
    w' = w.
Proof.
  unfold rag_chain_invoke, retriever_invoke. intros H.
  apply bind_inv_Ok in H as (w1 & docs & H1 & H2).
  apply bind_inv_Ok in H1 as (w2 & hits & H1 & H3).
  pose proof (search_keeps_world _ _ _ _ _ _ _ _ H1) as ->.
  run. inversion H3; subst. inversion H2; subst.
  exists hits. auto.
Qed.

(** What a successful [RAGPipeline.query] did: one scored retrieval with
    [k=10] on the store, one run of the chain, and the response built
    from both. *)
Lemma RAGPipeline_query_inv self question w w' resp :
  RAGPipeline_query summation embed_ok relevance llm self question w = (w', Ok resp) ->
  exists handle hits answer,
    vectorstore w = Some handle /\
    similarity_search_with_relevance_scores embed_ok relevance handle question 10 w
      = (w, Ok hits) /\
    rag_chain_invoke embed_ok relevance llm self question w = (w, Ok answer) /\
    w' = w /\
    resp = format_response summation question answer hits.
Proof.
  unfold RAGPipeline_query. intros H.
  apply bind_inv_Ok in H as (w1 & w0 & H0 & H).
  unfold get in H0. inversion H0; subst w1 w0; clear H0.
  apply bind_inv_Ok in H as (w1 & hits & H1 & H).
  destruct (vectorstore w) as [handle|] eqn:Hv; [|discriminate].
  pose proof (search_keeps_world _ _ _ _ _ _ _ _ H1) as ->.
  apply bind_inv_Ok in H as (w2 & answer & H2 & H).
  pose proof (rag_chain_invoke_inv _ _ _ _ _ H2) as (_ & _ & _ & ->).
  unfold ret in H. inversion H; subst.
  exists handle, hits, answer. auto.
Qed.

End Query.

(** ** Scores of a response *)

Lemma imap_source_info_scores (hits : list (Document * float)) :
  map relevance_score (imap source_info hits) = map snd hits.
Proof.
  unfold source_info.
  generalize S as number.
  induction hits as [|hit rest IH]; intros number; simpl.
  - reflexivity.
  - f_equal. apply (IH (number ∘ S)).
Qed.

Lemma format_response_sources_length summation question answer
    (hits : list (Document * float)) :
  length (sources (format_response summation question answer hits)) = length hits.
Proof. simpl. apply length_imap. Qed.

Lemma format_response_retrieved_chunks summation question answer
    (hits : list (Document * float)) :
  retrieved_chunks (metrics (format_response summation question answer hits)) = length hits.
Proof. simpl. apply length_map. Qed.

(** ** Strings: prefixes, lengths, joins *)

Lemma append_cons (c : ascii) (s t : string) : String c s +:+ t = String c (s +:+ t).
Proof. reflexivity. Qed.

Lemma append_nil_r (s : string) : s +:+ EmptyString = s.
Proof. induction s as [|c s IH]; [reflexivity | rewrite append_cons; now f_equal]. Qed.

Lemma length_append (s1 s2 : string) :
  String.length (s1 +:+ s2) = (String.length s1 + String.length s2)%nat.
Proof.
  induction s1 as [|c s1 IH]; [reflexivity|].
  rewrite append_cons. simpl. now rewrite IH.
Qed.

Lemma substring_all (s : string) : substring 0 (String.length s) s = s.
Proof. induction s as [|c s IH]; simpl; [reflexivity | now rewrite IH]. Qed.

(** [s[:n]] followed by [s[n:]] is [s]. *)
Lemma substring_split (n : nat) (s : string) :
  s = substring 0 n s +:+ substring n (String.length s - n) s.
Proof.
  revert n. induction s as [|c s IH]; intros n.
  - destruct n; reflexivity.
  - destruct n as [|n]; simpl.
    + change (String c s = String c (substring 0 (String.length s) s)).
      now rewrite substring_all.
    + rewrite append_cons. f_equal. apply IH.
Qed.

Lemma length_substring_prefix (n : nat) (s : string) :
  (n <= String.length s)%nat -> String.length (substring 0 n s) = n.
Proof.
  revert n. induction s as [|c s IH]; intros n Hn; simpl in *.
  - destruct n; [reflexivity | lia].
  - destruct n as [|n]; simpl; [reflexivity|]. rewrite IH; lia.
Qed.

Lemma preview_short (page : string) :
  (String.length page <= 300)%nat -> preview page = page.
Proof.
  intros H. unfold preview.
  destruct (Nat.ltb_spec 300 (String.length page)); [lia | reflexivity].
Qed.

Lemma preview_long (page : string) :
  (300 < String.length page)%nat ->
  exists kept dropped,
    page = kept +:+ dropped /\ String.length kept = 300%nat /\
    preview page = kept +:+ "...".
Proof.
  intros H. unfold preview.
  destruct (Nat.ltb_spec 300 (String.length page)); [|lia].
  exists (substring 0 300 page), (substring 300 (String.length page - 300) page).
  split; [apply substring_split|].
  split; [apply length_substring_prefix; lia | reflexivity].
Qed.

Lemma format_docs_cons (d : Document) (rest : list Document) :
  _format_docs (d :: rest) = page_content d +:+ blank_line_before_each rest.
Proof.
  unfold _format_docs. revert d.
  induction rest as [|d' rest IH]; intros d.
  - simpl. now rewrite append_nil_r.
  - change (String.concat (nl +:+ nl) (map page_content (d :: d' :: rest)))
      with (page_content d +:+ (nl +:+ nl) +:+ String.concat (nl +:+ nl) (map page_content (d' :: rest))).
    rewrite IH. reflexivity.
Qed.

Lemma format_docs_spec (docs : list Document) :
  _format_docs docs = texts_separated_by_blank_line docs.
Proof.
  destruct docs as [|d rest]; [reflexivity | apply format_docs_cons].
Qed.

Lemma length_blank_line_before_each (docs : list Document) :
  String.length (blank_line_before_each docs) =
  (list_sum (map (fun d => String.length (page_content d)) docs) + 2 * length docs)%nat.
Proof.
  induction docs as [|d rest IH]; [reflexivity|].
  change (blank_line_before_each (d :: rest))
    with (nl +:+ nl +:+ page_content d +:+ blank_line_before_each rest).
  rewrite !length_append, IH. simpl. lia.
Qed.

Lemma length_format_docs (docs : list Document) :
  String.length (_format_docs docs) =
  (list_sum (map (fun d => String.length (page_content d)) docs) + 2 * (length docs - 1))%nat.
Proof.
  destruct docs as [|d rest]; [reflexivity|].
  rewrite format_docs_cons, length_append, length_blank_line_before_each.
  simpl. lia.
Qed.

(** ** Properties of the query response *)

(** C1, as the code has it.  For every query that [RAGPipeline.query]
    answers, [average_relevance] is the value of the Python expression
    [sum(scores) / len(scores)] over the relevance scores of the retrieved
    chunks, which are the scores listed in the response's sources: the
    interpreter's float sum of the scores, divided in binary64 arithmetic
    by their number.  It is 0 when the retrieval returned no result. *)
Theorem average_relevance_is_float_quotient_of_scores
    (summation : Summation) (embed_ok : string -> bool)
    (relevance : string -> string -> float)
    (llm : string -> string -> result string)
    (self : RAGPipeline) (question : string) (w w' : World) (resp : Response) :
  RAGPipeline_query summation embed_ok relevance llm self question w = (w', Ok resp) ->
  exists handle hits,
    vectorstore w = Some handle /\
    similarity_search_with_relevance_scores embed_ok relevance handle question 10 w
      = (w, Ok hits) /\
    map relevance_score (sources resp) = map snd hits /\
    (hits <> [] ->
     average_relevance (metrics resp)
       = (sum summation (map snd hits) / float_of_nat (length hits))%float) /\
    (hits = [] -> average_relevance (metrics resp) = 0%float).
Proof.
  intros H.
  apply RAGPipeline_query_inv in H as (handle & hits & answer & Hv & Hs & _ & _ & ->).
  exists handle, hits. repeat split; try assumption.
  - apply imap_source_info_scores.
  - intros Hne. simpl. destruct hits as [|hit hits]; [contradiction|].
    simpl map. unfold avg_relevance. simpl length. now rewrite length_map.
  - intros ->. reflexivity.
Qed.

Lemma average_relevance_is_float_quotient_of_scores_witness :
  exists resp handle hits,
    vectorstore Demo.opened = Some handle /\
    similarity_search_with_relevance_scores Demo.embed_ok Demo.relevance handle "q" 10 Demo.opened
      = (Demo.opened, Ok hits) /\
    map relevance_score (sources resp) = map snd hits /\
    (hits <> [] ->
     average_relevance (metrics resp)
       = (sum Demo.summation (map snd hits) / float_of_nat (length hits))%float) /\
    (hits = [] -> average_relevance (metrics resp) = 0%float).
Proof.
  eexists.
  eapply (average_relevance_is_float_quotient_of_scores Demo.summation Demo.embed_ok
            Demo.relevance Demo.llm Demo.pipeline "q" Demo.opened).
  reflexivity.
Defined.

(** C1 as stated fails: for three retrieved chunks whose scores are the
    floats next to 0.3, 0.2 and 0.1, [average_relevance] is the float
    0.19999999999999998, with either way of summing.  The arithmetic mean
    of the three scores is another number, and it is not rounded to the
    nearest float either: the float next to 0.2 is nearer to it. *)
Lemma average_relevance_is_not_the_arithmetic_mean :
  Forall (fun summation =>
    exists resp s1 s2 s3 average nearer,
      RAGPipeline_query summation Demo.embed_ok Demo.relevance Demo.llm Demo.pipeline "q"
        Demo.three_scores = (Demo.three_scores, Ok resp) /\
      map relevance_score (sources resp)
        = [0x1.3333333333333p-2; 0x1.999999999999ap-3; 0x1.999999999999ap-4]%float /\
      average_relevance (metrics resp) = 0x1.9999999999999p-3%float /\
      map float_value (map relevance_score (sources resp)) = [Some s1; Some s2; Some s3] /\
      float_value (average_relevance (metrics resp)) = Some average /\
      float_value 0x1.999999999999ap-3 = Some nearer /\
      ~ (average == arithmetic_mean [s1; s2; s3])%Q /\
      (Qabs (nearer - arithmetic_mean [s1; s2; s3])
       < Qabs (average - arithmetic_mean [s1; s2; s3]))%Q)
    [Plain; Compensated].
Proof.
  repeat constructor.
  - eexists _, _, _, _, _, _.
    split; [reflexivity|]. split; [reflexivity|]. split; [reflexivity|].
    split; [vm_compute; reflexivity|]. split; [vm_compute; reflexivity|].
    split; [vm_compute; reflexivity|]. split.
    + intros H. vm_compute in H. discriminate.
    + vm_compute. reflexivity.
  - eexists _, _, _, _, _, _.
    split; [reflexivity|]. split; [reflexivity|]. split; [reflexivity|].
    split; [vm_compute; reflexivity|]. split; [vm_compute; reflexivity|].
    split; [vm_compute; reflexivity|]. split.
    + intros H. vm_compute in H. discriminate.
    + vm_compute. reflexivity.
Qed.

(** C7.  In every response of [RAGPipeline.query], the preview text of the
    source at each rank is the whole text of the chunk retrieved at that
    rank when the text has at most 300 characters, and otherwise its first
    300 characters followed by the marker of three dots; the answer is the
    text the language model returned for the prompt, whole, and
    [answer_length] is its length. *)
Theorem source_preview_truncated_answer_whole
    (summation : Summation) (embed_ok : string -> bool)
    (relevance : string -> string -> float)
    (llm : string -> string -> result string)
    (self : RAGPipeline) (question : string) (w w' : World) (resp : Response) :
  RAGPipeline_query summation embed_ok relevance llm self question w = (w', Ok resp) ->
  exists handle hits context_hits,
    vectorstore w = Some handle /\
    similarity_search_with_relevance_scores embed_ok relevance handle question 10 w
      = (w, Ok hits) /\
    length (sources resp) = length hits /\
    (forall i doc score, hits !! i = Some (doc, score) ->
       exists s, sources resp !! i = Some s /\
         ((String.length (page_content doc) <= 300)%nat ->
            source_text s = page_content doc) /\
         ((300 < String.length (page_content doc))%nat ->
            exists kept dropped,
              page_content doc = kept +:+ dropped /\
              String.length kept = 300%nat /\
              source_text s = kept +:+ "...")) /\
    similarity_search_with_relevance_scores embed_ok relevance
      (retriever_store self) question (retriever_k self) w = (w, Ok context_hits) /\
    llm (model_name self) (prompt_format (_format_docs (map fst context_hits)) question)
      = Ok (answer resp) /\
    answer_length (metrics resp) = String.length (answer resp).
Proof.
  intros H.
  apply RAGPipeline_query_inv in H as (handle & hits & answer & Hv & Hs & Hc & _ & ->).
  apply rag_chain_invoke_inv in Hc as (hits' & Hs' & Hllm & _).
  exists handle, hits, hits'.
  repeat split; try assumption.
  - apply length_imap.
  - intros i doc score Hi.
    exists (source_info i (doc, score)). split.
    + simpl. rewrite list_lookup_imap, Hi. reflexivity.
    + split; [apply preview_short | apply preview_long].
Qed.

Lemma source_preview_truncated_answer_whole_witness :
  exists resp handle hits context_hits,
    vectorstore Demo.opened = Some handle /\
    similarity_search_with_relevance_scores Demo.embed_ok Demo.relevance handle "q" 10 Demo.opened
      = (Demo.opened, Ok hits) /\
    length (sources resp) = length hits /\
    (forall i doc score, hits !! i = Some (doc, score) ->
       exists s, sources resp !! i = Some s /\
         ((String.length (page_content doc) <= 300)%nat ->
            source_text s = page_content doc) /\
         ((300 < String.length (page_content doc))%nat ->
            exists kept dropped,
              page_content doc = kept +:+ dropped /\
              String.length kept = 300%nat /\
              source_text s = kept +:+ "...")) /\
    similarity_search_with_relevance_scores Demo.embed_ok Demo.relevance
      (retriever_store Demo.pipeline) "q" (retriever_k Demo.pipeline) Demo.opened
      = (Demo.opened, Ok context_hits) /\
    Demo.llm (model_name Demo.pipeline)
      (prompt_format (_format_docs (map fst context_hits)) "q") = Ok (answer resp) /\
    answer_length (metrics resp) = String.length (answer resp).
Proof.
  eexists.
  eapply (source_preview_truncated_answer_whole Demo.summation Demo.embed_ok Demo.relevance Demo.llm
            Demo.pipeline "q" Demo.opened).
  reflexivity.
Defined.

(** C8.  The context put into the prompt of the generation step is the
    texts of the retrieved chunks, in the order the retriever ranked them,
    a blank line between two consecutive texts; every retrieved entry is
    written out, a repeated chunk as often as it was retrieved, so the
    context is as long as all the texts together plus two line breaks per
    gap, and a chunk retrieved twice stands in it twice. *)
Theorem generation_context_joins_ranked_texts
    (embed_ok : string -> bool) (relevance : string -> string -> float)
    (llm : string -> string -> result string)
    (self : RAGPipeline) (question : string) (w : World) :
  rag_chain_invoke embed_ok relevance llm self question w =
    match retriever_invoke embed_ok relevance
            (retriever_store self) (retriever_k self) question w with
    | (w', Ok docs) =>
        (w', llm (model_name self)
                 (prompt_format (texts_separated_by_blank_line docs) question))
    | (w', Raise e) => (w', Raise e)
    end
  /\
  (forall docs : list Document,
     _format_docs docs = texts_separated_by_blank_line docs /\
     String.length (_format_docs docs) =
       (list_sum (map (fun d => String.length (page_content d)) docs)
        + 2 * (length docs - 1))%nat)
  /\
  (forall d : Document,
     _format_docs [d; d] = page_content d +:+ nl +:+ nl +:+ page_content d).
Proof.
  split; [|split].
  - unfold rag_chain_invoke, bind.
    destruct (retriever_invoke _ _ _ _ _ w) as [w' [docs|e]]; [|reflexivity].
    unfold lift_result. now rewrite format_docs_spec.
  - intros docs. split; [apply format_docs_spec | apply length_format_docs].
  - intros d. rewrite format_docs_cons.
    change (blank_line_before_each [d])
      with (nl +:+ nl +:+ page_content d +:+ EmptyString).
    now rewrite append_nil_r.
Qed.

(** ** The HTTP query endpoint *)

Section Endpoint.

Variable cfg : Config.
Variable summation : Summation.
Variable embed_ok : string -> bool.
Variable relevance : string -> string -> float.
Variable llm : string -> string -> result string.

Lemma DoclingRAGSystem_query_inv question verbose w w' result :
  DoclingRAGSystem_query cfg summation embed_ok relevance llm question verbose w
    = (w', Ok result) ->
  exists w1 pipeline,
    rag_pipeline w1 = Some pipeline /\
    RAGPipeline_query summation embed_ok relevance llm pipeline question w1 = (w', Ok result).
Proof.
  unfold DoclingRAGSystem_query. intros H.
  apply bind_inv_Ok in H as (w0 & w00 & Hget & H).
  unfold get in Hget. inversion Hget; subst w0 w00; clear Hget.
  apply bind_inv_Ok in H as (w1 & [] & _ & H).
  apply bind_inv_Ok in H as (w2 & w0 & Hget & H).
  unfold get in Hget. inversion Hget; subst w2 w0; clear Hget.
  destruct (rag_pipeline w1) as [pipeline|] eqn:Hp; [|discriminate].
  exists w1, pipeline. auto.
Qed.

(** A response of the endpoint is the pipeline's result with its sources
    cut to the first five. *)
Lemma query_documents_inv request w w' resp :
  query_documents cfg summation embed_ok relevance llm request w = (w', Ok resp) ->
  exists w1 result,
    get_rag_system cfg w = (w1, Ok tt) /\
    glob_any (default [] (docs_dir w1)) <> [] /\
    DoclingRAGSystem_query cfg summation embed_ok relevance llm (request_question request) false w1
      = (w', Ok result) /\
    resp = mkQueryResponse (question result) (answer result)
                           (take 5 (sources result)) (metrics result).
Proof.
  unfold query_documents, try_except. intros H.
  match type of H with
  | (match ?body with _ => _ end) = _ => destruct body as [w2 [r|e]] eqn:Hbody
  end.
  - inversion H; subst w2 r; clear H.
    apply bind_inv_Ok in Hbody as (w1 & [] & Hsys & Hbody).
    apply bind_inv_Ok in Hbody as (w2 & w0 & Hget & Hbody).
    unfold get in Hget. inversion Hget; subst w2 w0; clear Hget.
    destruct (length (glob_any (default [] (docs_dir w1))) =? 0)%nat eqn:Hcount;
      [discriminate|].
    apply bind_inv_Ok in Hbody as (w2 & result & Hq & Hret).
    unfold ret in Hret. inversion Hret; subst w2 resp; clear Hret.
    exists w1, result. repeat split; try assumption.
    intros Hnil. rewrite Hnil in Hcount. discriminate.
  - simpl in H. destruct e; discriminate.
Qed.

(** The request's [top_k] is not read. *)
Lemma query_documents_top_k_irrelevant question k1 k2 w :
  query_documents cfg summation embed_ok relevance llm (mkQueryRequest question k1) w =
  query_documents cfg summation embed_ok relevance llm (mkQueryRequest question k2) w.
Proof. reflexivity. Qed.

End Endpoint.

(** C10.  A response of the HTTP query endpoint carries the first five
    sources of the pipeline's result, in rank order and numbered from 1,
    and the pipeline's metrics unchanged: the number of sources is the
    smaller of 5 and [retrieved_chunks], also when [retrieved_chunks] is
    larger than 5. *)
Theorem endpoint_returns_first_five_sources
    (cfg : Config) (summation : Summation) (embed_ok : string -> bool)
    (relevance : string -> string -> float)
    (llm : string -> string -> result string)
    (request : QueryRequest) (w w' : World) (resp : QueryResponse) :
  query_documents cfg summation embed_ok relevance llm request w = (w', Ok resp) ->
  exists w1 result,
    DoclingRAGSystem_query cfg summation embed_ok relevance llm (request_question request) false w1
      = (w', Ok result) /\
    response_sources resp = take 5 (sources result) /\
    response_metrics resp = metrics result /\
    (length (response_sources resp) <= 5)%nat /\
    length (response_sources resp)
      = Nat.min 5 (retrieved_chunks (response_metrics resp)) /\
    (forall i s, response_sources resp !! i = Some s ->
       (i < 5)%nat /\ sources result !! i = Some s /\ source_number s = S i).
Proof.
  intros H.
  apply query_documents_inv in H as (w1 & result & _ & _ & Hq & ->).
  exists w1, result. simpl.
  pose proof Hq as Hq'.
  apply DoclingRAGSystem_query_inv in Hq' as (w2 & pipeline & _ & Hp).
  apply RAGPipeline_query_inv in Hp as (handle & hits & answer & _ & _ & _ & _ & ->).
  repeat split; try assumption.
  - rewrite length_take. lia.
  - rewrite length_take, format_response_sources_length, format_response_retrieved_chunks.
    reflexivity.
  - apply lookup_take_Some in H. tauto.
  - apply lookup_take_Some in H. tauto.
  - apply lookup_take_Some in H as [H _]. simpl in H.
    rewrite list_lookup_imap in H.
    destruct (hits !! i) as [hit|]; simpl in H; inversion H. reflexivity.
Qed.

Lemma endpoint_returns_first_five_sources_witness :
  exists w' resp w1 result,
    query_documents Demo.cfg Demo.summation Demo.embed_ok Demo.relevance Demo.llm
      (QueryRequest_parse "q" None) Demo.populated = (w', Ok resp) /\
    retrieved_chunks (response_metrics resp) = 10%nat /\
    DoclingRAGSystem_query Demo.cfg Demo.summation Demo.embed_ok Demo.relevance Demo.llm
      "q" false w1
      = (w', Ok result) /\
    response_sources resp = take 5 (sources result) /\
    response_metrics resp = metrics result /\
    (length (response_sources resp) <= 5)%nat /\
    length (response_sources resp)
      = Nat.min 5 (retrieved_chunks (response_metrics resp)) /\
    (forall i s, response_sources resp !! i = Some s ->
       (i < 5)%nat /\ sources result !! i = Some s /\ source_number s = S i).
Proof.
  assert (Hrun : { out : World * QueryResponse |
             query_documents Demo.cfg Demo.summation Demo.embed_ok Demo.relevance Demo.llm
               (QueryRequest_parse "q" None) Demo.populated = (fst out, Ok (snd out)) /\
             retrieved_chunks (response_metrics (snd out)) = 10%nat }).
  { eexists (_, _). split; reflexivity. }
  destruct Hrun as [[w' resp] [Hrun Hten]]. simpl in Hrun, Hten.
  exists w', resp.
  destruct (endpoint_returns_first_five_sources _ _ _ _ _ _ _ _ _ Hrun)
    as (w1 & result & H).
  exists w1, result. auto.
Defined.

(** C2.  The request of the query endpoint has a [top_k] that is 10 when
    the body leaves it out, yet no response depends on it: with twelve
    chunks stored, a request with [top_k = 3] is answered from 10 retrieved
    chunks. *)
Theorem top_k_defaults_to_10_and_is_ignored :
  (forall question, top_k (QueryRequest_parse question None) = Some 10%Z) /\
  (forall cfg summation embed_ok relevance llm question k1 k2 w,
     query_documents cfg summation embed_ok relevance llm (mkQueryRequest question k1) w =
     query_documents cfg summation embed_ok relevance llm (mkQueryRequest question k2) w) /\
  exists w' resp,
    query_documents Demo.cfg Demo.summation Demo.embed_ok Demo.relevance Demo.llm
      (QueryRequest_parse "q" (Some (Some 3%Z))) Demo.populated = (w', Ok resp) /\
    top_k (QueryRequest_parse "q" (Some (Some 3%Z))) = Some 3%Z /\
    retrieved_chunks (response_metrics resp) = 10%nat /\
    length (response_sources resp) = 5%nat.
Proof.
  split; [reflexivity|].
  split; [intros; apply query_documents_top_k_irrelevant|].
  eexists _, _. repeat split; reflexivity.
Qed.

(** ** Chunking *)

Lemma substring_prefix_append (s rest : string) :
  substring 0 (String.length s) (s +:+ rest) = s.
Proof.
  induction s as [|c s IH].
  - destruct rest; reflexivity.
  - rewrite append_cons. simpl. now rewrite IH.
Qed.

Lemma prefix_true_iff (s next : string) :
  String.prefix s next = true <-> exists rest, next = s +:+ rest.
Proof.
  rewrite prefix_correct. split.
  - intros H. exists (substring (String.length s) (String.length next - String.length s) next).
    pose proof (substring_split (String.length s) next) as Hsplit.
    now rewrite H in Hsplit.
  - intros [rest ->]. apply substring_prefix_append.
Qed.

Lemma suffixes_spec (s prev : string) :
  In s (suffixes prev) <-> s <> EmptyString /\ exists front, prev = front +:+ s.
Proof.
  induction prev as [|c prev IH]; simpl.
  - split; [contradiction|].
    intros [Hne [front H]]. destruct front.
    + change (EmptyString = s) in H. congruence.
    + rewrite append_cons in H. discriminate.
  - rewrite IH. split.
    + intros [<- | [Hne [front ->]]].
      * split; [discriminate | now exists EmptyString].
      * split; [assumption | now exists (String c front)].
    + intros [Hne [front H]]. destruct front as [|d front].
      * left. exact H.
      * right. split; [assumption|]. exists front.
        rewrite append_cons in H. now inversion H.
Qed.

(** [shares_overlap] decides whether some non-empty end of [prev] is a
    beginning of [next]. *)
Lemma shares_overlap_true_iff (prev next : string) :
  shares_overlap prev next = true <->
  exists s, s <> EmptyString /\
            (exists front, prev = front +:+ s) /\ (exists rest, next = s +:+ rest).
Proof.
  unfold shares_overlap. rewrite existsb_exists. split.
  - intros [s [Hin Hpre]]. exists s.
    apply suffixes_spec in Hin as [Hne Hfront]. apply prefix_true_iff in Hpre. auto.
  - intros [s [Hne [Hfront Hrest]]]. exists s. split.
    + apply suffixes_spec. auto.
    + now apply prefix_true_iff.
Qed.

(** A loop of steps that touch no state is [collect]. *)
Lemma for_each_lift {A B} (f : A -> result B) (l : list A) (w : World) :
  for_each (fun x => lift_result (f x)) l w = (w, collect f l).
Proof.
  induction l as [|x l IH]; [reflexivity|].
  simpl. unfold bind, lift_result at 1. destruct (f x) as [y|e]; [|reflexivity].
  rewrite IH. destruct (collect f l); reflexivity.
Qed.

Lemma chunk_document_eq chunker_chunk self document w :
  chunk_document chunker_chunk self document w =
    (w, match chunker_chunk (chunker_max_tokens self) document with
        | Ok chunks => collect chunk_data chunks
        | Raise e => Raise e
        end).
Proof.
  unfold chunk_document, bind, lift_result at 1.
  destruct (chunker_chunk (chunker_max_tokens self) document); [|reflexivity].
  apply for_each_lift.
Qed.

(** C3.  The chunks of a document do not depend on [chunk_overlap], which
    the constructor of [ChunkingStrategy] drops; with [chunk_overlap = 128]
    and a chunker that yields one chunk per paragraph, the second chunk of
    a document of two paragraphs begins with no trailing part of the
    first. *)
Theorem chunk_overlap_is_dropped :
  (forall chunker_chunk chunk_size overlap1 overlap2 document w,
     chunk_document chunker_chunk (ChunkingStrategy_init chunk_size overlap1) document w =
     chunk_document chunker_chunk (ChunkingStrategy_init chunk_size overlap2) document w) /\
  exists first second,
    chunk_document Demo.chunker_chunk (ChunkingStrategy_init 512 128)
      Demo.two_paragraphs Demo.fresh = (Demo.fresh, Ok [first; second]) /\
    text first = "alpha" /\
    text second = "beta" /\
    ~ (exists s, s <> EmptyString /\
                 (exists front, text first = front +:+ s) /\
                 (exists rest, text second = s +:+ rest)).
Proof.
  split; [reflexivity|].
  eexists _, _. split; [reflexivity|].
  split; [reflexivity|]. split; [reflexivity|].
  intros H. apply shares_overlap_true_iff in H. discriminate.
Qed.

(** C5, as the code has it.  For a document from which the chunker yields
    no chunk, as for one without any text, [chunk_document] returns the
    empty list of chunks; it raises nothing of its own. *)
Theorem chunk_document_without_chunks_returns_empty
    (chunker_chunk : nat -> DoclingDocument -> result (list BaseChunk))
    (self : ChunkingStrategy) (document : DoclingDocument) (w : World) :
  chunker_chunk (chunker_max_tokens self) document = Ok [] ->
  chunk_document chunker_chunk self document w = (w, Ok []).
Proof. intros H. rewrite chunk_document_eq, H. reflexivity. Qed.

Lemma chunk_document_without_chunks_returns_empty_witness :
  Demo.chunker_chunk 512 Demo.no_text = Ok [] /\
  chunk_document Demo.chunker_chunk (ChunkingStrategy_init 512 128) Demo.no_text Demo.fresh
    = (Demo.fresh, Ok []).
Proof.
  split; [reflexivity|].
  apply (chunk_document_without_chunks_returns_empty
           Demo.chunker_chunk (ChunkingStrategy_init 512 128) Demo.no_text Demo.fresh).
  reflexivity.
Defined.

(** C5 as stated fails: a document with no text, no table and no picture
    is chunked without any exception. *)
Lemma chunk_document_no_text_does_not_fail :
  texts Demo.no_text = [] /\ tables Demo.no_text = [] /\ pictures Demo.no_text = [] /\
  ~ (exists w' e,
       chunk_document Demo.chunker_chunk (ChunkingStrategy_init 512 128)
         Demo.no_text Demo.fresh = (w', Raise e)).
Proof.
  repeat split. intros (w' & e & H). discriminate.
Qed.

(** ** Batch parsing *)

Lemma set_converted_id (w : World) : set_converted (converted w ++ []) w = w.
Proof. destruct w. unfold set_converted. simpl. now rewrite app_nil_r. Qed.

Lemma set_converted_twice (c1 c2 : list string) (w : World) :
  set_converted (converted (set_converted (converted w ++ c1) w) ++ c2)
                (set_converted (converted w ++ c1) w)
  = set_converted (converted w ++ c1 ++ c2) w.
Proof. unfold set_converted. simpl. now rewrite app_assoc. Qed.

Section Parsing.

Variable convert : string -> result DoclingDocument.

Lemma process_document_Ok file_path doc w :
  convert file_path = Ok doc ->
  process_document convert file_path w
    = (set_converted (converted w ++ [file_path]) w, Ok doc).
Proof. intros H. unfold process_document. run. now rewrite H. Qed.

Lemma process_document_Raise file_path e w :
  convert file_path = Raise e ->
  process_document convert file_path w
    = (set_converted (converted w ++ [file_path]) w, Raise e).
Proof. intros H. unfold process_document. run. now rewrite H. Qed.

(** When every file parses, the batch yields one document per file, in
    the order of the paths. *)
Lemma process_documents_all_parse file_paths docs w :
  Forall2 (fun p d => convert p = Ok d) file_paths docs ->
  process_documents convert file_paths w
    = (set_converted (converted w ++ file_paths) w, Ok docs).
Proof.
  intros H. revert w. unfold process_documents.
  induction H as [|p d ps ds Hp _ IH]; intros w.
  - unfold for_each, ret. now rewrite set_converted_id.
  - simpl. rewrite (bind_Ok _ _ _ _ _ (process_document_Ok _ _ _ Hp)).
    rewrite (bind_Ok _ _ _ _ _ (IH _)). unfold ret.
    now rewrite set_converted_twice.
Qed.

(** The loop ends at the first file that does not parse. *)
Lemma process_documents_first_failure before docs bad after e w :
  Forall2 (fun p d => convert p = Ok d) before docs ->
  convert bad = Raise e ->
  process_documents convert (before ++ bad :: after) w
    = (set_converted (converted w ++ before ++ [bad]) w, Raise e).
Proof.
  intros H Hbad. revert w. unfold process_documents.
  induction H as [|p d ps ds Hp _ IH]; intros w.
  - simpl. now rewrite (bind_Raise _ _ _ _ _ (process_document_Raise _ _ _ Hbad)).
  - simpl. rewrite (bind_Ok _ _ _ _ _ (process_document_Ok _ _ _ Hp)).
    rewrite (bind_Raise _ _ _ _ _ (IH _)).
    now rewrite set_converted_twice.
Qed.

End Parsing.

(** C4, as the code has it.  In a batch, the first file that fails to
    parse ends the ingestion: its exception reaches the caller of
    [ingest_documents], the files before it and the failing file have been
    given to the converter, no file after it has, and nothing has been
    chunked or written to the vector store. *)
Theorem parse_failure_aborts_batch
    (cfg : Config) (convert : string -> result DoclingDocument)
    (chunker_chunk : nat -> DoclingDocument -> result (list BaseChunk))
    (embed_ok : string -> bool)
    (before : list string) (docs : list DoclingDocument)
    (bad : string) (after : list string) (e : exn) (w : World) :
  Forall2 (fun p d => convert p = Ok d) before docs ->
  convert bad = Raise e ->
  ingest_documents cfg convert chunker_chunk embed_ok (Some (before ++ bad :: after)) w
    = (set_converted (converted w ++ before ++ [bad]) w, Raise e).
Proof.
  intros Hbefore Hbad. unfold ingest_documents, ingest_files.
  apply bind_Raise. now apply process_documents_first_failure with (docs := docs).
Qed.

Lemma parse_failure_aborts_batch_witness :
  ingest_documents Demo.cfg Demo.convert Demo.chunker_chunk Demo.embed_ok
    (Some (["docs/a.md"] ++ "docs/broken.pdf" :: ["docs/c.md"])) Demo.fresh
    = (set_converted (converted Demo.fresh ++ ["docs/a.md"] ++ ["docs/broken.pdf"]) Demo.fresh,
       Raise (LibraryError "conversion failed")).
Proof.
  apply (parse_failure_aborts_batch Demo.cfg Demo.convert Demo.chunker_chunk Demo.embed_ok
           ["docs/a.md"] [mkDoclingDocument ["docs/a.md"] [] []]
           "docs/broken.pdf" ["docs/c.md"]).
  - repeat constructor.
  - reflexivity.
Defined.

(** C4 as stated fails: of three files, the second does not parse, and the
    third, which would parse, is never given to the converter; the
    ingestion ends with the exception and an untouched store. *)
Lemma batch_of_three_stops_at_broken_file :
  Demo.convert "docs/c.md" = Ok (mkDoclingDocument ["docs/c.md"] [] []) /\
  exists w',
    ingest_documents Demo.cfg Demo.convert Demo.chunker_chunk Demo.embed_ok
      (Some ["docs/a.md"; "docs/broken.pdf"; "docs/c.md"]) Demo.fresh
      = (w', Raise (LibraryError "conversion failed")) /\
    converted w' = ["docs/a.md"; "docs/broken.pdf"] /\
    ~ In "docs/c.md" (converted w') /\
    disk w' = disk Demo.fresh.
Proof.
  split; [reflexivity|].
  eexists. split; [reflexivity|].
  split; [reflexivity|]. split; [|reflexivity].
  simpl. intros [H|[H|[]]]; discriminate.
Qed.

(** ** Discovery of documents *)

Lemma glob_ext_nil (names : list string) (ext : string) :
  (forall name, In name names -> ends_with ext name = false) ->
  glob_ext names ext = [].
Proof.
  unfold glob_ext. induction names as [|n names IH]; intros H; [reflexivity|].
  rewrite filter_cons_False.
  - apply IH. intros name Hin. apply H. now right.
  - rewrite (H n); [discriminate | now left].
Qed.

(** Discovery finds nothing when no file name of the folder ends with a
    supported extension. *)
Lemma discovery_nil (names : list string) :
  (forall name ext, In name names -> In ext supported_extensions ->
                    ends_with ext name = false) ->
  flat_map (glob_ext names) supported_extensions = [].
Proof.
  intros H. induction supported_extensions as [|ext exts IH]; [reflexivity|].
  simpl. rewrite glob_ext_nil.
  - apply IH. intros name ext' Hn He. apply H; [assumption | now right].
  - intros name Hn. apply H; [assumption | now left].
Qed.

(** C6, as the code has it.  When [ingest_documents] is called without
    file paths and the [docs] folder is missing or holds no file with a
    supported extension, it prints what is wrong and returns: no exception
    is raised, nothing is parsed, and the vector store is untouched. *)
Theorem ingest_without_discovered_files_returns
    (cfg : Config) (convert : string -> result DoclingDocument)
    (chunker_chunk : nat -> DoclingDocument -> result (list BaseChunk))
    (embed_ok : string -> bool) (w : World) :
  (forall names, docs_dir w = Some names ->
                 flat_map (glob_ext names) supported_extensions = []) ->
  exists out,
    out <> [] /\
    ingest_documents cfg convert chunker_chunk embed_ok None w
      = (set_stdout (stdout w ++ out) w, Ok tt).
Proof.
  intros H. unfold ingest_documents.
  destruct (docs_dir w) as [names|] eqn:Hdir.
  - exists ["No supported documents found in 'docs' folder";
            "   Supported formats: " +:+ String.concat ", " supported_extensions].
    split; [discriminate|].
    unfold bind at 1, get. rewrite Hdir, (H names eq_refl).
    unfold print. run. unfold set_stdout. simpl.
    now rewrite <- app_assoc.
  - exists ["'docs' folder not found. Please create it and add documents."].
    split; [discriminate|].
    unfold bind at 1, get. rewrite Hdir. reflexivity.
Qed.

Lemma ingest_without_discovered_files_returns_witness :
  exists out,
    out <> [] /\
    ingest_documents Demo.cfg Demo.convert Demo.chunker_chunk Demo.embed_ok None Demo.only_notes
      = (set_stdout (stdout Demo.only_notes ++ out) Demo.only_notes, Ok tt).
Proof.
  apply (ingest_without_discovered_files_returns
           Demo.cfg Demo.convert Demo.chunker_chunk Demo.embed_ok Demo.only_notes).
  intros names H. inversion H. reflexivity.
Defined.

(** C6 as stated fails: with a [docs] folder in which discovery finds no
    file, [ingest_documents] raises nothing. *)
Lemma ingest_with_no_documents_does_not_fail :
  docs_dir Demo.only_notes = Some ["notes.txt"; "README"] /\
  flat_map (glob_ext ["notes.txt"; "README"]) supported_extensions = [] /\
  ~ (exists w' e,
       ingest_documents Demo.cfg Demo.convert Demo.chunker_chunk Demo.embed_ok
         None Demo.only_notes = (w', Raise e)).
Proof.
  repeat split. intros (w' & e & H). discriminate.
Qed.

(** ** Building the vector store *)

Lemma documents_embed_iff (embed_ok : string -> bool) (chunks : list Chunk) :
  forallb (fun d => embed_ok (page_content d)) (filter_complex_metadata (to_documents chunks))
  = forallb (fun c => embed_ok (text c)) chunks.
Proof.
  induction chunks as [|c chunks IH]; [reflexivity|].
  simpl. now rewrite <- IH.
Qed.

(** C9, as the code has it.  Called on a handle that is already open,
    [create_vectorstore] performs the build as it does on a closed one:
    given at least one chunk, and chunks that embed, it returns the handle
    of the configured collection, which then holds its earlier entries
    followed by the new documents, and the handle stays open. *)
Theorem create_vectorstore_on_open_handle_builds
    (cfg : Config) (embed_ok : string -> bool)
    (chunks : list Chunk) (handle : string) (w : World) :
  vectorstore w = Some handle ->
  chunks <> [] ->
  forallb (fun c => embed_ok (text c)) chunks = true ->
  exists w',
    create_vectorstore cfg embed_ok chunks w = (w', Ok (COLLECTION_NAME cfg)) /\
    vectorstore w' = Some (COLLECTION_NAME cfg) /\
    disk w' !! COLLECTION_NAME cfg
      = Some (default [] (disk w !! COLLECTION_NAME cfg)
              ++ filter_complex_metadata (to_documents chunks)) /\
    create_vectorstore cfg embed_ok chunks (set_vectorstore None w) = (w', Ok (COLLECTION_NAME cfg)).
Proof.
  intros _ Hne Hembed.
  unfold create_vectorstore, Chroma_from_documents, Chroma_open, Chroma_add_documents.
  run. rewrite documents_embed_iff, Hembed.
  destruct chunks as [|c chunks]; [contradiction|].
  change (filter_complex_metadata (to_documents (c :: chunks)))
    with (filter_complex_metadata (to_documents [c])
          ++ filter_complex_metadata (to_documents chunks)).
  simpl app.
  destruct (disk w !! COLLECTION_NAME cfg) as [old|] eqn:Hold;
    simpl; eexists; (split; [reflexivity|]); simpl;
    (split; [reflexivity|]); (split; [|reflexivity]).
  - now rewrite lookup_alter_eq, Hold.
  - now rewrite lookup_alter_eq, lookup_insert_eq.
Qed.

Lemma create_vectorstore_on_open_handle_builds_witness :
  exists w',
    create_vectorstore Demo.cfg Demo.embed_ok [mkChunk "new" ∅] Demo.opened
      = (w', Ok (COLLECTION_NAME Demo.cfg)) /\
    vectorstore w' = Some (COLLECTION_NAME Demo.cfg) /\
    disk w' !! COLLECTION_NAME Demo.cfg
      = Some (default [] (disk Demo.opened !! COLLECTION_NAME Demo.cfg)
              ++ filter_complex_metadata (to_documents [mkChunk "new" ∅])) /\
    create_vectorstore Demo.cfg Demo.embed_ok [mkChunk "new" ∅]
      (set_vectorstore None Demo.opened) = (w', Ok (COLLECTION_NAME Demo.cfg)).
Proof.
  apply (create_vectorstore_on_open_handle_builds
           Demo.cfg Demo.embed_ok [mkChunk "new" ∅] "docling_rag" Demo.opened);
    [reflexivity | discriminate | reflexivity].
Defined.

(** C9 as stated fails: on an open handle over a collection of twelve
    chunks, [create_vectorstore] raises nothing and the collection has
    thirteen entries afterwards. *)
Lemma create_vectorstore_on_open_handle_does_not_fail :
  vectorstore Demo.opened = Some "docling_rag" /\
  (exists w',
     create_vectorstore Demo.cfg Demo.embed_ok [mkChunk "new" ∅] Demo.opened
       = (w', Ok "docling_rag") /\
     length <$> (disk w' !! "docling_rag") = Some 13%nat) /\
  ~ (exists w' e,
       create_vectorstore Demo.cfg Demo.embed_ok [mkChunk "new" ∅] Demo.opened
         = (w', Raise e)).
Proof.
  split; [reflexivity|]. split.
  - eexists. split; [reflexivity|]. vm_compute. reflexivity.
  - intros (w' & e & H). vm_compute in H. discriminate.
Qed.

(** * Further properties of the code *)

(** ** What a retrieval returns *)

Lemma insert_ranked_Permutation {A} (x : A * float) (l : list (A * float)) :
  Permutation (insert_ranked x l) (x :: l).
Proof.
  induction l as [|y l IH]; simpl; [reflexivity|].
  destruct (snd x <=? snd y)%float; [|reflexivity].
  rewrite IH. apply perm_swap.
Qed.

Lemma sort_ranked_Permutation {A} (l : list (A * float)) :
  Permutation (sort_ranked l) l.
Proof.
  unfold sort_ranked.
  assert (H : forall acc, Permutation (fold_left (fun acc x => insert_ranked x acc) l acc)
                                      (l ++ acc)).
  { induction l as [|x l IH]; intros acc; simpl; [reflexivity|].
    rewrite IH, insert_ranked_Permutation. symmetry. apply Permutation_middle. }
  rewrite H. now rewrite app_nil_r.
Qed.

Lemma length_sort_ranked {A} (l : list (A * float)) : length (sort_ranked l) = length l.
Proof. apply Permutation_length, sort_ranked_Permutation. Qed.

Section RetrievalFacts.

Variable embed_ok : string -> bool.
Variable relevance : string -> string -> float.

(** A retrieval returns the smaller of [k] and the size of the
    collection many hits, each a stored document with its score. *)
Lemma search_hits handle query k w w' hits :
  similarity_search_with_relevance_scores embed_ok relevance handle query k w = (w', Ok hits) ->
  length hits = Nat.min k (length (default [] (disk w !! handle))) /\
  forall hit, In hit hits ->
    In (fst hit) (default [] (disk w !! handle)) /\
    snd hit = relevance query (page_content (fst hit)).
Proof.
  intros H. apply search_inv in H as [_ ->]. split.
  - now rewrite length_take, length_sort_ranked, length_map.
  - intros hit Hin.
    assert (Hin' : In hit (map (fun d => (d, relevance query (page_content d)))
                               (default [] (disk w !! handle)))).
    { apply (Permutation_in _ (sort_ranked_Permutation _)).
      rewrite <- (take_drop k (sort_ranked _)). apply in_or_app. now left. }
    apply in_map_iff in Hin' as (d & <- & Hd). auto.
Qed.

End RetrievalFacts.

Lemma length_preview (page : string) :
  (String.length (preview page) <= 303)%nat.
Proof.
  destruct (Nat.le_gt_cases (String.length page) 300) as [H|H].
  - rewrite preview_short by assumption. lia.
  - destruct (preview_long page H) as (kept & dropped & Hpage & Hkept & ->).
    rewrite length_append, Hkept. simpl. lia.
Qed.

(** ** More on the response of a query *)

(** X8.  A response counts as [retrieved_chunks] the smaller of 10 and the
    size of the collection, lists that many sources, numbers them 1, 2,
    ... in rank order, repeats the question, and leaves the process state
    as it was. *)
Theorem query_sources_numbered_and_counted
    (summation : Summation) (embed_ok : string -> bool)
    (relevance : string -> string -> float)
    (llm : string -> string -> result string)
    (self : RAGPipeline) (asked : string) (w w' : World) (resp : Response) :
  RAGPipeline_query summation embed_ok relevance llm self asked w = (w', Ok resp) ->
  exists handle,
    vectorstore w = Some handle /\
    retrieved_chunks (metrics resp)
      = Nat.min 10 (length (default [] (disk w !! handle))) /\
    length (sources resp) = retrieved_chunks (metrics resp) /\
    (forall i s, sources resp !! i = Some s -> source_number s = S i) /\
    question resp = asked /\
    w' = w.
Proof.
  intros H.
  apply RAGPipeline_query_inv in H as (handle & hits & answer & Hv & Hs & _ & -> & ->).
  exists handle. apply search_hits in Hs as [Hlen _].
  rewrite format_response_sources_length, format_response_retrieved_chunks.
  repeat split; try assumption; try reflexivity.
  intros i s Hi. simpl in Hi. rewrite list_lookup_imap in Hi.
  destruct (hits !! i); simpl in Hi; inversion Hi. reflexivity.
Qed.

Lemma query_sources_numbered_and_counted_witness :
  exists resp handle,
    vectorstore Demo.opened = Some handle /\
    retrieved_chunks (metrics resp)
      = Nat.min 10 (length (default [] (disk Demo.opened !! handle))) /\
    length (sources resp) = retrieved_chunks (metrics resp) /\
    (forall i s, sources resp !! i = Some s -> source_number s = S i) /\
    question resp = "q" /\
    Demo.opened = Demo.opened.
Proof.
  eexists.
  eapply (query_sources_numbered_and_counted Demo.summation Demo.embed_ok Demo.relevance Demo.llm
            Demo.pipeline "q" Demo.opened).
  reflexivity.
Defined.

(** X9.  Every source of a response is a document of the collection: its
    text is the preview of that document, at most 303 characters long,
    its metadata is the document's, and its score is the relevance of the
    document for the question. *)
Theorem query_sources_are_stored_documents
    (summation : Summation) (embed_ok : string -> bool)
    (relevance : string -> string -> float)
    (llm : string -> string -> result string)
    (self : RAGPipeline) (question : string) (w w' : World) (resp : Response) :
  RAGPipeline_query summation embed_ok relevance llm self question w = (w', Ok resp) ->
  exists handle,
    vectorstore w = Some handle /\
    forall s, In s (sources resp) ->
      (String.length (source_text s) <= 303)%nat /\
      exists d,
        In d (default [] (disk w !! handle)) /\
        source_text s = preview (page_content d) /\
        source_metadata s = doc_metadata d /\
        relevance_score s = relevance question (page_content d).
Proof.
  intros H.
  apply RAGPipeline_query_inv in H as (handle & hits & answer & Hv & Hs & _ & -> & ->).
  exists handle. split; [assumption|].
  apply search_hits in Hs as [_ Hhits].
  intros s Hin. simpl in Hin.
  apply list_elem_of_In, elem_of_lookup_imap in Hin as (i & hit & -> & Hi).
  assert (Hhit : In hit hits).
  { apply list_elem_of_In, list_elem_of_lookup. eauto. }
  destruct (Hhits hit Hhit) as [Hd Hs]. split.
  - apply length_preview.
  - exists (fst hit). auto.
Qed.

Lemma query_sources_are_stored_documents_witness :
  exists resp handle,
    vectorstore Demo.opened = Some handle /\
    forall s, In s (sources resp) ->
      (String.length (source_text s) <= 303)%nat /\
      exists d,
        In d (default [] (disk Demo.opened !! handle)) /\
        source_text s = preview (page_content d) /\
        source_metadata s = doc_metadata d /\
        relevance_score s = Demo.relevance "q" (page_content d).
Proof.
  eexists.
  eapply (query_sources_are_stored_documents Demo.summation Demo.embed_ok Demo.relevance Demo.llm
            Demo.pipeline "q" Demo.opened).
  reflexivity.
Defined.

(** ** Extensions and discovery *)

Lemma substring_append_skip (front s : string) :
  substring (String.length front) (String.length s) (front +:+ s) = s.
Proof.
  induction front as [|c front IH].
  - apply substring_all.
  - rewrite append_cons. simpl. exact IH.
Qed.

(** [ends_with ext name] holds exactly when [name] is some text followed
    by [ext]. *)
Lemma ends_with_iff (ext name : string) :
  ends_with ext name = true <-> exists front, name = front +:+ ext.
Proof.
  unfold ends_with. rewrite andb_true_iff, Nat.leb_le, String.eqb_eq. split.
  - intros [Hlen Hsub].
    exists (substring 0 (String.length name - String.length ext) name).
    pose proof (substring_split (String.length name - String.length ext) name) as Hsplit.
    replace (String.length name - (String.length name - String.length ext))%nat
      with (String.length ext) in Hsplit by lia.
    now rewrite Hsub in Hsplit.
  - intros [front ->]. rewrite length_append. split; [lia|].
    replace (String.length front + String.length ext - String.length ext)%nat
      with (String.length front) by lia.
    apply substring_append_skip.
Qed.

(** Of two endings of one name, the shorter ends the longer. *)
Lemma endings_nest (f1 e1 f2 e2 : string) :
  f1 +:+ e1 = f2 +:+ e2 ->
  (String.length e1 <= String.length e2)%nat ->
  exists g, e2 = g +:+ e1.
Proof.
  revert f1. induction f2 as [|c f2 IH]; intros f1 H Hlen.
  - exists f1. now rewrite H.
  - destruct f1 as [|d f1].
    + exfalso. apply (f_equal String.length) in H.
      change (EmptyString +:+ e1) with e1 in H.
      rewrite length_append in H. simpl in H. lia.
    + rewrite !append_cons in H. inversion H; subst. eauto.
Qed.

Lemma supported_extensions_do_not_nest (e1 e2 : string) :
  In e1 supported_extensions -> In e2 supported_extensions ->
  ends_with e1 e2 = true -> e1 = e2.
Proof.
  intros H1 H2 H.
  assert (Htable : forallb (fun a => forallb (fun b =>
                     implb (ends_with a b) (String.eqb a b)) supported_extensions)
                     supported_extensions = true) by (vm_compute; reflexivity).
  rewrite forallb_forall in Htable. specialize (Htable e1 H1).
  rewrite forallb_forall in Htable. specialize (Htable e2 H2).
  rewrite H in Htable. now apply String.eqb_eq.
Qed.

(** A file name ends with at most one supported extension. *)
Lemma supported_extension_unique (e1 e2 name : string) :
  In e1 supported_extensions -> In e2 supported_extensions ->
  ends_with e1 name = true -> ends_with e2 name = true -> e1 = e2.
Proof.
  intros H1 H2 He1 He2.
  apply ends_with_iff in He1 as [f1 Hf1]. apply ends_with_iff in He2 as [f2 Hf2].
  rewrite Hf1 in Hf2.
  destruct (Nat.le_ge_cases (String.length e1) (String.length e2)) as [Hle|Hle].
  - destruct (endings_nest _ _ _ _ Hf2 Hle) as [g Hg].
    apply supported_extensions_do_not_nest; try assumption.
    apply ends_with_iff. eauto.
  - symmetry in Hf2. destruct (endings_nest _ _ _ _ Hf2 Hle) as [g Hg].
    symmetry. apply supported_extensions_do_not_nest; try assumption.
    apply ends_with_iff. eauto.
Qed.

Lemma in_glob_ext (names : list string) (ext p : string) :
  In p (glob_ext names ext) <->
  exists n, In n names /\ ends_with ext n = true /\ p = "docs/" +:+ n.
Proof.
  unfold glob_ext. rewrite in_map_iff. split.
  - intros (n & <- & Hn). apply list_elem_of_In, list_elem_of_filter in Hn as [He Hn].
    exists n. rewrite <- list_elem_of_In. auto.
  - intros (n & Hn & He & ->). exists n. split; [reflexivity|].
    apply list_elem_of_In, list_elem_of_filter. rewrite list_elem_of_In. auto.
Qed.

Lemma glob_ext_NoDup (names : list string) (ext : string) :
  NoDup names -> NoDup (glob_ext names ext).
Proof.
  intros H. unfold glob_ext.
  apply (NoDup_fmap_2 (String.append "docs/")). now apply NoDup_filter.
Qed.

Lemma discovery_NoDup_in (names exts : list string) :
  NoDup names -> NoDup exts ->
  (forall e, In e exts -> In e supported_extensions) ->
  NoDup (flat_map (glob_ext names) exts).
Proof.
  intros Hnames Hexts Hsub. induction Hexts as [|e exts Hnotin Hexts IH]; simpl.
  - constructor.
  - apply NoDup_app. split; [now apply glob_ext_NoDup|]. split.
    + intros p Hp Hq. apply list_elem_of_In in Hp, Hq.
      apply in_glob_ext in Hp as (n & _ & He & ->).
      apply in_flat_map in Hq as (e' & He' & Hq).
      apply in_glob_ext in Hq as (n' & _ & Hen' & Heq).
      apply (inj (String.append "docs/")) in Heq. subst n'.
      assert (e = e').
      { apply (supported_extension_unique e e' n); try assumption;
          apply Hsub; [now left | now right]. }
      subst e'. apply Hnotin. now apply list_elem_of_In.
    + apply IH. intros e' He'. apply Hsub. now right.
Qed.

Lemma discovery_NoDup (names : list string) :
  NoDup names -> NoDup (flat_map (glob_ext names) supported_extensions).
Proof.
  intros Hnames. apply discovery_NoDup_in; [assumption | | auto].
  refine (bool_decide_unpack (NoDup supported_extensions) _). vm_compute. exact I.
Qed.

Lemma in_discovery (names : list string) (p : string) :
  In p (flat_map (glob_ext names) supported_extensions) <->
  exists n ext, In n names /\ In ext supported_extensions /\
                ends_with ext n = true /\ p = "docs/" +:+ n.
Proof.
  rewrite in_flat_map. split.
  - intros (ext & Hext & Hp). apply in_glob_ext in Hp as (n & Hn & He & ->).
    exists n, ext. auto.
  - intros (n & ext & Hn & Hext & He & ->). exists ext. split; [assumption|].
    apply in_glob_ext. eauto.
Qed.

(** Discovery finds as many files as the folder has names with a
    supported extension. *)
Lemma discovery_length (names : list string) :
  NoDup names ->
  length (flat_map (glob_ext names) supported_extensions)
    = length (filter (fun n => has_supported_extension n = true) names).
Proof.
  intros Hnames.
  rewrite <- (length_map (String.append "docs/")
                (filter (fun n => has_supported_extension n = true) names)).
  apply Permutation_length.
  apply NoDup_Permutation; [now apply discovery_NoDup | |].
  - apply (NoDup_fmap_2 (String.append "docs/")). now apply NoDup_filter.
  - intros p. rewrite !list_elem_of_In, in_discovery, in_map_iff. split.
    + intros (n & ext & Hn & Hext & He & ->). exists n. split; [reflexivity|].
      apply list_elem_of_In, list_elem_of_filter. split.
      * unfold has_supported_extension. apply existsb_exists. eauto.
      * now apply list_elem_of_In.
    + intros (n & <- & Hn).
      apply list_elem_of_In, list_elem_of_filter in Hn as [Hhas Hn].
      apply existsb_exists in Hhas as (ext & Hext & He).
      exists n, ext. rewrite <- list_elem_of_In. auto.
Qed.

(** X6.  Auto-discovery over a folder lists each file whose name ends
    with a supported extension exactly once, as a path below [docs], and
    nothing else; no name counts for two extensions. *)
Theorem discovery_lists_each_supported_file_once (names : list string) :
  NoDup names ->
  NoDup (flat_map (glob_ext names) supported_extensions) /\
  (forall p, In p (flat_map (glob_ext names) supported_extensions) <->
             exists n ext front,
               In n names /\ In ext supported_extensions /\
               n = front +:+ ext /\ p = "docs/" +:+ n) /\
  length (flat_map (glob_ext names) supported_extensions)
    = length (filter (fun n => has_supported_extension n = true) names).
Proof.
  intros Hnames. split; [now apply discovery_NoDup|]. split.
  - intros p. rewrite in_discovery. split.
    + intros (n & ext & Hn & Hext & He & ->).
      apply ends_with_iff in He as [front ->]. exists (front +:+ ext), ext, front. auto.
    + intros (n & ext & front & Hn & Hext & -> & ->).
      exists (front +:+ ext), ext. repeat split; try assumption.
      apply ends_with_iff. eauto.
  - now apply discovery_length.
Qed.

Lemma discovery_lists_each_supported_file_once_witness :
  flat_map (glob_ext ["report.pdf"; "notes.txt"; "table.csv"]) supported_extensions
    = ["docs/report.pdf"; "docs/table.csv"] /\
  NoDup (flat_map (glob_ext ["report.pdf"; "notes.txt"; "table.csv"]) supported_extensions).
Proof.
  split; [reflexivity|].
  apply (discovery_lists_each_supported_file_once ["report.pdf"; "notes.txt"; "table.csv"]).
  refine (bool_decide_unpack (NoDup ["report.pdf"; "notes.txt"; "table.csv"]) _).
  vm_compute. exact I.
Defined.

(** ** File sizes *)

Lemma append_assoc (s1 s2 s3 : string) : (s1 +:+ s2) +:+ s3 = s1 +:+ (s2 +:+ s3).
Proof.
  induction s1 as [|c s1 IH]; [reflexivity|].
  rewrite !append_cons. now f_equal.
Qed.

Lemma round_half_even_compat (p q : Q) : (p == q)%Q -> round_half_even p = round_half_even q.
Proof.
  intros H. unfold round_half_even. rewrite (Qfloor_comp _ _ H).
  assert (Hc : (p - inject_Z (Qfloor q) ?= 1 # 2) = (q - inject_Z (Qfloor q) ?= 1 # 2)).
  { apply Qcompare_comp; [now rewrite H | reflexivity]. }
  now rewrite Hc.
Qed.

(** Rounding moves a number by at most one half. *)
Lemma round_half_even_close (q : Q) :
  (Qabs (inject_Z (round_half_even q) - q) <= 1 # 2)%Q.
Proof.
  unfold round_half_even.
  pose proof (Qfloor_le q) as Hlo. pose proof (Qlt_floor q) as Hhi.
  rewrite inject_Z_plus in Hhi. change (inject_Z 1) with 1%Q in Hhi.
  apply Qabs_Qle_condition.
  destruct (q - inject_Z (Qfloor q) ?= 1 # 2) eqn:Hc.
  - apply Qeq_alt in Hc.
    destruct (Z.even (Qfloor q)); [|rewrite inject_Z_plus; change (inject_Z 1) with 1%Q];
      split; lra.
  - apply Qlt_alt in Hc. split; lra.
  - apply Qgt_alt in Hc. rewrite inject_Z_plus. change (inject_Z 1) with 1%Q. split; lra.
Qed.

Lemma round_half_even_nonneg (q : Q) : (0 <= q)%Q -> (0 <= round_half_even q)%Z.
Proof.
  intros H. unfold round_half_even.
  assert (Hf : (0 <= Qfloor q)%Z).
  { change 0%Z with (Qfloor 0). now apply Qfloor_resp_le. }
  destruct (q - inject_Z (Qfloor q) ?= 1 # 2); [destruct (Z.even _)|..]; lia.
Qed.

Lemma round_half_even_integer (z : Z) : round_half_even (inject_Z z) = z.
Proof.
  unfold round_half_even. rewrite Qfloor_Z.
  assert (H : (inject_Z z - inject_Z z ?= 1 # 2) = Lt).
  { apply Qlt_alt. unfold Qminus. rewrite Qplus_opp_r. reflexivity. }
  now rewrite H.
Qed.

Lemma scaled_eq (k : nat) (q : Q) :
  (scaled k q == q / inject_Z (1024 ^ Z.of_nat k))%Q.
Proof.
  revert q. induction k as [|k IH]; intros q.
  - change (q == q / 1)%Q. field.
  - simpl scaled. rewrite IH.
    rewrite Nat2Z.inj_succ, Z.pow_succ_r by lia.
    rewrite inject_Z_mult. change (inject_Z 1024) with 1024%Q.
    assert (~ inject_Z (1024 ^ Z.of_nat k) == 0)%Q.
    { change 0%Q with (inject_Z 0). rewrite inject_Z_injective.
      apply Z.pow_nonzero; lia. }
    field. assumption.
Qed.

(** The loop stops at the first unit for which the scaled size is below
    1024, or runs out of units. *)
Lemma format_file_size_from_stops (units : list string) (q : Q) (k : nat) :
  (k <= length units)%nat ->
  (forall j, (j < k)%nat -> (1024 <= scaled j q)%Q) ->
  ((k < length units)%nat -> (scaled k q < 1024)%Q) ->
  format_file_size_from units q =
    format_2f (scaled k q) +:+ " " +:+ nth k units "TB".
Proof.
  revert q k. induction units as [|unit rest IH]; intros q k Hk Hbig Hsmall.
  - simpl in Hk. assert (k = 0)%nat as -> by lia. reflexivity.
  - simpl format_file_size_from. destruct (Qlt_le_dec q 1024) as [Hq|Hq].
    + destruct k as [|k]; [reflexivity|].
      specialize (Hbig 0%nat ltac:(lia)). simpl in Hbig. exfalso. lra.
    + destruct k as [|k].
      * specialize (Hsmall ltac:(simpl; lia)). simpl in Hsmall. exfalso. lra.
      * simpl scaled. simpl nth. apply IH.
        -- simpl in Hk. lia.
        -- intros j Hj. apply (Hbig (S j)). lia.
        -- intros Hlt. apply Hsmall. simpl. lia.
Qed.

Lemma two_digits_length (m : Z) :
  (0 <= m < 100)%Z -> String.length (two_digits m) = 2%nat.
Proof.
  intros Hm.
  assert (Htable : forallb (fun n => Nat.eqb (String.length (two_digits (Z.of_nat n))) 2)
                           (seq 0 100) = true) by (vm_compute; reflexivity).
  rewrite forallb_forall in Htable.
  specialize (Htable (Z.to_nat m)). rewrite Z2Nat.id in Htable by lia.
  apply Nat.eqb_eq, Htable. apply in_seq. lia.
Qed.

(** A number that is not negative is written as its hundredths [h],
    which are within half a hundredth of it. *)
Lemma format_2f_nonneg (q : Q) :
  (0 <= q)%Q ->
  exists h : Z,
    (0 <= h)%Z /\
    format_2f q = decimal (Z.to_N (h / 100)) +:+ "." +:+ two_digits (h mod 100) /\
    (Qabs ((h # 100) - q) <= 1 # 200)%Q.
Proof.
  intros Hq. exists (round_half_even (Qabs q * 100)).
  assert (Habs : (Qabs q == q)%Q) by now apply Qabs_pos.
  split; [|split].
  - apply round_half_even_nonneg. rewrite Habs. lra.
  - unfold format_2f. destruct (Qlt_le_dec q 0) as [Hneg|_]; [exfalso; lra | reflexivity].
  - pose proof (round_half_even_close (Qabs q * 100)) as Hclose.
    apply Qabs_Qle_condition in Hclose as [Hlo Hhi].
    apply Qabs_Qle_condition.
    set (h := round_half_even (Qabs q * 100)) in *.
    rewrite Habs in Hlo, Hhi.
    assert (Hh : (h # 100 == inject_Z h * (1 # 100))%Q).
    { rewrite (Qmake_Qdiv h 100). reflexivity. }
    rewrite Hh. clear Hh. set (x := inject_Z h) in *. clearbody x.
    split; lra.
Qed.

(** An integer below [2^53] is a float. *)
Lemma float_of_int_exact (n : N) :
  (Z.of_N n < 2 ^ 53)%Z -> float_of_int n = inject_Z (Z.of_N n).
Proof.
  intros H. unfold float_of_int.
  assert (He : (Z.log2 (Z.of_N n) - 52 <= 0)%Z).
  { destruct (Z.eq_dec (Z.of_N n) 0) as [->|Hz]; [simpl; lia|].
    assert (Z.log2 (Z.of_N n) < 53)%Z by (apply Z.log2_lt_pow2; lia).
    lia. }
  apply Z.leb_le in He. now rewrite He.
Qed.

Lemma scaled_bounds (size : Z) (j : nat) :
  ((1024 ^ Z.of_nat (S j) <= size)%Z -> (1024 <= scaled j (inject_Z size))%Q) /\
  ((size < 1024 ^ Z.of_nat (S j))%Z -> (scaled j (inject_Z size) < 1024)%Q).
Proof.
  assert (Hpos : (0 < 1024 ^ Z.of_nat j)%Z) by (apply Z.pow_pos_nonneg; lia).
  assert (HposQ : (0 < inject_Z (1024 ^ Z.of_nat j))%Q).
  { change 0%Q with (inject_Z 0). now rewrite <- Zlt_Qlt. }
  rewrite Nat2Z.inj_succ, Z.pow_succ_r by lia.
  rewrite scaled_eq. split; intros H.
  - apply Qle_shift_div_l; [assumption|].
    change 1024%Q with (inject_Z 1024). rewrite <- inject_Z_mult, <- Zle_Qle. lia.
  - apply Qlt_shift_div_r; [assumption|].
    change 1024%Q with (inject_Z 1024). rewrite <- inject_Z_mult, <- Zlt_Qlt. lia.
Qed.

(** X23.  [format_file_size] writes a size below [2^53], which the
    conversion to a float leaves as it is, in the unit number [k] of B,
    KB, MB, GB, TB when the size is at least [1024^k] and, for a unit
    before TB, below [1024^(k+1)]: the text is a whole part, a point, two
    digits, a space and the unit, and the number written is within half a
    hundredth of the size divided by [1024^k]. *)
Theorem format_file_size_unit_and_accuracy (size : N) (k : nat) :
  (Z.of_N size < 2 ^ 53)%Z ->
  (k <= 4)%nat ->
  (k = 0%nat \/ (1024 ^ Z.of_nat k <= Z.of_N size)%Z) ->
  ((k < 4)%nat -> (Z.of_N size < 1024 ^ Z.of_nat (S k))%Z) ->
  exists h : Z,
    (0 <= h)%Z /\
    format_file_size size =
      decimal (Z.to_N (h / 100)) +:+ "." +:+ two_digits (h mod 100)
      +:+ " " +:+ nth k ["B"; "KB"; "MB"; "GB"] "TB" /\
    String.length (two_digits (h mod 100)) = 2%nat /\
    (Qabs ((h # 100) - inject_Z (Z.of_N size) / inject_Z (1024 ^ Z.of_nat k)) <= 1 # 200)%Q.
Proof.
  intros Hexact Hk Hlow Hhigh.
  assert (Hq : (0 <= scaled k (inject_Z (Z.of_N size)))%Q).
  { rewrite scaled_eq. apply Qle_shift_div_l.
    - change 0%Q with (inject_Z 0). rewrite <- Zlt_Qlt. apply Z.pow_pos_nonneg; lia.
    - rewrite Qmult_0_l. change 0%Q with (inject_Z 0). rewrite <- Zle_Qle. lia. }
  destruct (format_2f_nonneg _ Hq) as (h & Hh & Hfmt & Hclose).
  exists h. split; [assumption|]. split; [|split].
  - unfold format_file_size. rewrite float_of_int_exact by assumption.
    rewrite (format_file_size_from_stops _ _ k); [| simpl; lia | |].
    + rewrite Hfmt, !append_assoc. reflexivity.
    + intros j Hj. apply scaled_bounds.
      destruct Hlow as [->|Hlow]; [lia|].
      transitivity (1024 ^ Z.of_nat k)%Z; [|assumption].
      apply Z.pow_le_mono_r; lia.
    + intros Hlt. apply scaled_bounds. apply Hhigh. simpl in Hlt. lia.
  - apply two_digits_length. apply Z.mod_pos_bound. lia.
  - now rewrite <- scaled_eq.
Qed.

Lemma format_file_size_unit_and_accuracy_witness :
  format_file_size 1536 = "1.50 KB" /\
  exists h : Z,
    (0 <= h)%Z /\
    format_file_size 1536 =
      decimal (Z.to_N (h / 100)) +:+ "." +:+ two_digits (h mod 100)
      +:+ " " +:+ nth 1 ["B"; "KB"; "MB"; "GB"] "TB" /\
    String.length (two_digits (h mod 100)) = 2%nat /\
    (Qabs ((h # 100) - inject_Z (Z.of_N 1536) / inject_Z (1024 ^ Z.of_nat 1)) <= 1 # 200)%Q.
Proof.
  split; [vm_compute; reflexivity|].
  apply (format_file_size_unit_and_accuracy 1536 1);
    [reflexivity | lia | right; vm_compute; discriminate |].
  intros _. vm_compute. reflexivity.
Defined.

(** Beyond [2^53] the conversion rounds: [2^53 + 1236950581249] bytes are
    [8193.125] TB as a float, which [.2f] writes with an even last digit;
    the size itself is above [8193.125] TB. *)
Lemma format_file_size_beyond_exact_floats :
  format_file_size 9008436205322241 = "8193.12 TB" /\
  format_2f (9008436205322241 # 1099511627776) = "8193.13".
Proof. split; vm_compute; reflexivity. Qed.

(** X22.  A size below 1024 bytes is written as the number of bytes
    itself, followed by [.00 B]. *)
Theorem format_file_size_of_bytes (size : N) :
  (size < 1024)%N ->
  format_file_size size = decimal size +:+ ".00 B".
Proof.
  intros H. unfold format_file_size.
  rewrite float_of_int_exact by lia. simpl format_file_size_from.
  destruct (Qlt_le_dec (inject_Z (Z.of_N size)) 1024) as [_|Hbig].
  - unfold format_2f.
    assert (Hnn : (0 <= inject_Z (Z.of_N size))%Q).
    { change 0%Q with (inject_Z 0). rewrite <- Zle_Qle. lia. }
    destruct (Qlt_le_dec (inject_Z (Z.of_N size)) 0) as [Hneg|_]; [exfalso; lra|].
    assert (Hr : round_half_even (Qabs (inject_Z (Z.of_N size)) * 100) = (Z.of_N size * 100)%Z).
    { rewrite <- round_half_even_integer. apply round_half_even_compat.
      rewrite Qabs_pos by assumption. rewrite inject_Z_mult. reflexivity. }
    rewrite Hr, Z.div_mul, Z.mod_mul, N2Z.id by lia.
    change (two_digits 0) with "00".
    rewrite !append_assoc. reflexivity.
  - exfalso. change 1024%Q with (inject_Z 1024) in Hbig. rewrite <- Zle_Qle in Hbig. lia.
Qed.

Lemma format_file_size_of_bytes_witness :
  format_file_size 512 = "512.00 B".
Proof.
  apply (format_file_size_of_bytes 512). reflexivity.
Defined.

(** ** Parsing, chunking and storing *)

(** X1.  When every file of the list parses, [process_documents] returns
    one document per file, in the order of the list, after giving each
    file to the converter once, in that order. *)
Theorem process_documents_parses_every_file_in_order
    (convert : string -> result DoclingDocument)
    (file_paths : list string) (documents : list DoclingDocument) (w : World) :
  Forall2 (fun p d => convert p = Ok d) file_paths documents ->
  exists w',
    process_documents convert file_paths w = (w', Ok documents) /\
    length documents = length file_paths /\
    converted w' = converted w ++ file_paths /\
    disk w' = disk w /\ stdout w' = stdout w /\ vectorstore w' = vectorstore w.
Proof.
  intros H. eexists. split; [now apply process_documents_all_parse|].
  split; [symmetry; eapply Forall2_length; eassumption|].
  repeat split.
Qed.

Lemma process_documents_parses_every_file_in_order_witness :
  exists w',
    process_documents Demo.convert ["docs/a.md"; "docs/b.md"] Demo.fresh
      = (w', Ok [mkDoclingDocument ["docs/a.md"] [] []; mkDoclingDocument ["docs/b.md"] [] []]) /\
    length [mkDoclingDocument ["docs/a.md"] [] []; mkDoclingDocument ["docs/b.md"] [] []]
      = length ["docs/a.md"; "docs/b.md"] /\
    converted w' = converted Demo.fresh ++ ["docs/a.md"; "docs/b.md"] /\
    disk w' = disk Demo.fresh /\ stdout w' = stdout Demo.fresh /\
    vectorstore w' = vectorstore Demo.fresh.
Proof.
  apply (process_documents_parses_every_file_in_order Demo.convert).
  repeat constructor.
Defined.

(** The dictionaries of two runs of chunks are built one run after the
    other. *)
Lemma collect_app {A B} (f : A -> result B) (l1 l2 : list A) :
  collect f (l1 ++ l2) =
    match collect f l1 with
    | Ok ys1 =>
        match collect f l2 with
        | Ok ys2 => Ok (ys1 ++ ys2)
        | Raise e => Raise e
        end
    | Raise e => Raise e
    end.
Proof.
  induction l1 as [|x l1 IH]; simpl.
  - destruct (collect f l2); reflexivity.
  - destruct (f x) as [y|e]; [|reflexivity].
    rewrite IH. destruct (collect f l1); [|reflexivity].
    destruct (collect f l2); reflexivity.
Qed.

Section Chunking.

Variable chunker_chunk : nat -> DoclingDocument -> result (list BaseChunk).

Lemma for_each_chunk_document self documents per_document w :
  Forall2 (fun d chunks => chunker_chunk (chunker_max_tokens self) d = Ok chunks)
          documents per_document ->
  for_each (chunk_document chunker_chunk self) documents w
    = (w, collect (collect chunk_data) per_document).
Proof.
  induction 1 as [|d cs ds css Hd _ IH]; [reflexivity|].
  simpl. unfold bind. rewrite chunk_document_eq, Hd.
  destruct (collect chunk_data cs); [|reflexivity].
  rewrite IH. destruct (collect (collect chunk_data) css); reflexivity.
Qed.

Lemma collect_concat (per_document : list (list BaseChunk)) :
  collect chunk_data (concat per_document) =
    match collect (collect chunk_data) per_document with
    | Ok per_doc => Ok (concat per_doc)
    | Raise e => Raise e
    end.
Proof.
  induction per_document as [|cs css IH]; [reflexivity|].
  simpl. rewrite collect_app, IH.
  destruct (collect chunk_data cs); [|reflexivity].
  destruct (collect (collect chunk_data) css); reflexivity.
Qed.

Lemma chunk_documents_all_chunk self documents per_document w :
  Forall2 (fun d chunks => chunker_chunk (chunker_max_tokens self) d = Ok chunks)
          documents per_document ->
  chunk_documents chunker_chunk self documents w
    = (w, collect chunk_data (concat per_document)).
Proof.
  intros H. unfold chunk_documents, bind.
  rewrite (for_each_chunk_document _ _ _ _ H), collect_concat.
  destruct (collect (collect chunk_data) per_document); reflexivity.
Qed.

Lemma chunk_documents_first_failure self before per_document bad after e w :
  Forall2 (fun d chunks => chunker_chunk (chunker_max_tokens self) d = Ok chunks)
          before per_document ->
  chunker_chunk (chunker_max_tokens self) bad = Raise e ->
  chunk_documents chunker_chunk self (before ++ bad :: after) w
    = (w, match collect chunk_data (concat per_document) with
          | Ok _ => Raise e
          | Raise earlier => Raise earlier
          end).
Proof.
  intros H Hbad. unfold chunk_documents.
  assert (Hloop : for_each (chunk_document chunker_chunk self) (before ++ bad :: after) w
                  = (w, match collect (collect chunk_data) per_document with
                        | Ok _ => Raise e
                        | Raise earlier => Raise earlier
                        end)).
  { induction H as [|d cs ds css Hd _ IH].
    - simpl. unfold bind. now rewrite chunk_document_eq, Hbad.
    - simpl. unfold bind. rewrite chunk_document_eq, Hd.
      destruct (collect chunk_data cs); [|reflexivity].
      rewrite IH. destruct (collect (collect chunk_data) css); reflexivity. }
  unfold bind. rewrite Hloop, collect_concat.
  destruct (collect (collect chunk_data) per_document); reflexivity.
Qed.

End Chunking.

(** X2.  [chunk_documents] builds the dictionaries of the chunks of the
    documents one document after the other, in the order of the documents
    and, within a document, in the order the chunker yields them: it
    returns them all, or raises the exception of the first chunk whose
    dictionary does not build; a document the chunker fails on makes the
    whole call fail, with the chunker's exception when the chunks before
    built. *)
Theorem chunk_documents_concatenates_in_document_order
    (chunker_chunk : nat -> DoclingDocument -> result (list BaseChunk))
    (self : ChunkingStrategy) (documents : list DoclingDocument)
    (per_document : list (list BaseChunk)) (w : World) :
  Forall2 (fun d chunks => chunker_chunk (chunker_max_tokens self) d = Ok chunks)
          documents per_document ->
  chunk_documents chunker_chunk self documents w
    = (w, collect chunk_data (concat per_document)) /\
  (forall bad after e,
     chunker_chunk (chunker_max_tokens self) bad = Raise e ->
     chunk_documents chunker_chunk self (documents ++ bad :: after) w
       = (w, match collect chunk_data (concat per_document) with
             | Ok _ => Raise e
             | Raise earlier => Raise earlier
             end)).
Proof.
  intros H. split.
  - now apply chunk_documents_all_chunk.
  - intros bad after e Hbad. now apply chunk_documents_first_failure.
Qed.

Lemma chunk_documents_concatenates_in_document_order_witness :
  exists alpha beta,
    chunk_data (Demo.paragraph "alpha") = Ok alpha /\
    chunk_data (Demo.paragraph "beta") = Ok beta /\
    chunk_documents Demo.chunker_chunk (ChunkingStrategy_init 512 128)
      [Demo.two_paragraphs; Demo.no_text; Demo.two_paragraphs] Demo.fresh
    = (Demo.fresh, Ok [alpha; beta; alpha; beta]).
Proof.
  eexists _, _. split; [reflexivity|]. split; [reflexivity|].
  apply (chunk_documents_concatenates_in_document_order Demo.chunker_chunk
           (ChunkingStrategy_init 512 128) _
           [[Demo.paragraph "alpha"; Demo.paragraph "beta"]; [];
            [Demo.paragraph "alpha"; Demo.paragraph "beta"]]).
  repeat constructor.
Defined.

(** ** What reaches the vector store *)

(** The three metadata entries of a dictionary that builds hold a list, a
    dictionary or [None]: [filter_complex_metadata] drops them all. *)
Lemma stored_metadata_empty (chunk : BaseChunk) (data : Chunk) :
  chunk_data chunk = Ok data ->
  text data = chunk_text chunk /\
  filter (fun kv : string * MetaVal => is_primitive (snd kv) = true) (metadata data) = ∅.
Proof.
  unfold chunk_data.
  destruct (origin_dump (meta_origin (chunk_meta chunk))) as [origin|e] eqn:Horigin;
    [|discriminate].
  intros H. inversion H; subst data; clear H. split; [reflexivity|]. simpl.
  apply map_empty. intros k. apply map_lookup_filter_None_2. right.
  intros v Hkv. rewrite !lookup_insert_Some, lookup_empty in Hkv.
  destruct Hkv as [[_ <-]|[_ [[_ <-]|[_ [[_ <-]|[_ Hkv]]]]]]; simpl.
  - destruct (meta_doc_items (chunk_meta chunk)) as [|[]]; discriminate.
  - destruct (meta_headings (chunk_meta chunk)) as [|[]]; discriminate.
  - destruct (meta_origin (chunk_meta chunk)) as [|[]]; inversion Horigin; discriminate.
  - discriminate.
Qed.

Lemma stored_documents (base : list BaseChunk) (chunks : list Chunk) :
  collect chunk_data base = Ok chunks ->
  filter_complex_metadata (to_documents chunks)
  = map (fun chunk => mkDocument (chunk_text chunk) ∅) base.
Proof.
  revert chunks. induction base as [|c base IH]; intros chunks H; simpl in H.
  - inversion H. reflexivity.
  - destruct (chunk_data c) as [data|] eqn:Hdata; [|discriminate].
    destruct (collect chunk_data base) as [rest|]; [|discriminate].
    inversion H; subst chunks; clear H.
    destruct (stored_metadata_empty _ _ Hdata) as [Htext Hmeta].
    change (filter_complex_metadata (to_documents (data :: rest)))
      with (mkDocument (text data)
              (filter (fun kv : string * MetaVal => is_primitive (snd kv) = true)
                      (metadata data))
            :: filter_complex_metadata (to_documents rest)).
    rewrite Htext, Hmeta, (IH rest eq_refl). reflexivity.
Qed.

(** A dictionary builds exactly when the [origin] of the chunk is not
    [None]. *)
Lemma chunk_data_Ok_iff (chunk : BaseChunk) :
  (exists data, chunk_data chunk = Ok data) <-> origin_dumps chunk = true.
Proof.
  unfold chunk_data, origin_dumps, origin_dump.
  destruct (meta_origin (chunk_meta chunk)) as [|[fields|]]; split; eauto.
  - intros [data H]. discriminate.
  - discriminate.
Qed.

Lemma collect_chunk_data_Ok_iff (base : list BaseChunk) :
  (exists chunks, collect chunk_data base = Ok chunks) <->
  forallb origin_dumps base = true.
Proof.
  induction base as [|c base IH]; simpl.
  - split; eauto.
  - rewrite andb_true_iff, <- IH, <- chunk_data_Ok_iff.
    clear IH. destruct (chunk_data c) as [data|e].
    + destruct (collect chunk_data base) as [rest|e].
      * split; [intros _; split; eauto | intros _; eauto].
      * split; [intros [chunks H] | intros [_ [chunks H]]]; discriminate.
    + split; [intros [chunks H] | intros [[data H] _]]; discriminate.
Qed.

(** X3.  The documents handed to the vector store for chunks whose
    dictionaries build carry the chunk texts and no metadata: the entries
    [doc_items], [headings] and [origin] are all filtered out, whether
    they hold a list, a dictionary or [None].  The dictionaries build
    exactly when no chunk has an [origin] that is [None], on which
    [model_dump] cannot be called; a [headings] that is [None] is kept as
    [None] in the dictionary. *)
Theorem chunks_are_stored_without_metadata (base : list BaseChunk) :
  (forall chunks,
     collect chunk_data base = Ok chunks ->
     filter_complex_metadata (to_documents chunks)
       = map (fun chunk => mkDocument (chunk_text chunk) ∅) base) /\
  ((exists chunks, collect chunk_data base = Ok chunks) <->
   Forall (fun chunk => meta_origin (chunk_meta chunk) <> Holds None) base) /\
  (forall chunk data,
     chunk_data chunk = Ok data ->
     (meta_headings (chunk_meta chunk) = Holds None ->
      metadata data !! "headings" = Some MNone) /\
     (forall headings, meta_headings (chunk_meta chunk) = Holds (Some headings) ->
      metadata data !! "headings" = Some (MList headings)) /\
     (meta_headings (chunk_meta chunk) = Missing ->
      metadata data !! "headings" = Some (MList []))).
Proof.
  split; [apply stored_documents|]. split.
  - rewrite collect_chunk_data_Ok_iff, forallb_forall, Forall_forall.
    split; intros H chunk Hin.
    + apply list_elem_of_In in Hin. specialize (H chunk Hin).
      unfold origin_dumps in H. intros Hnone. rewrite Hnone in H. discriminate.
    + apply list_elem_of_In in Hin. specialize (H chunk Hin).
      unfold origin_dumps. destruct (meta_origin (chunk_meta chunk)) as [|[]];
        [reflexivity | reflexivity | contradiction].
  - intros chunk data. unfold chunk_data.
    destruct (origin_dump (meta_origin (chunk_meta chunk))) as [origin|e]; [|discriminate].
    intros H. inversion H; subst data; clear H. simpl.
    rewrite lookup_insert_ne by discriminate. rewrite lookup_insert_eq.
    split; [|split].
    + intros ->. reflexivity.
    + intros headings ->. reflexivity.
    + intros ->. reflexivity.
Qed.

Lemma chunks_are_stored_without_metadata_witness :
  (exists chunks,
     collect chunk_data [Demo.paragraph "alpha"; Demo.paragraph "beta"] = Ok chunks /\
     Forall (fun data => metadata data !! "headings" = Some MNone) chunks /\
     filter_complex_metadata (to_documents chunks)
       = [mkDocument "alpha" ∅; mkDocument "beta" ∅]) /\
  ~ (exists chunks,
       collect chunk_data [Demo.paragraph "alpha"; Demo.without_origin "beta"] = Ok chunks).
Proof.
  split.
  - eexists. split; [reflexivity|]. split; [repeat constructor|].
    apply (proj1 (chunks_are_stored_without_metadata
                    [Demo.paragraph "alpha"; Demo.paragraph "beta"])).
    reflexivity.
  - intros H.
    apply (proj1 (proj2 (chunks_are_stored_without_metadata
                           [Demo.paragraph "alpha"; Demo.without_origin "beta"]))) in H.
    inversion H as [|? ? _ Hrest]. inversion Hrest as [|? ? Hbeta _]. now apply Hbeta.
Defined.

Section Ingestion.

Variable cfg : Config.
Variable convert : string -> result DoclingDocument.
Variable chunker_chunk : nat -> DoclingDocument -> result (list BaseChunk).
Variable embed_ok : string -> bool.

Lemma chunks_embed_iff (base : list BaseChunk) (chunks : list Chunk) :
  collect chunk_data base = Ok chunks ->
  forallb (fun d => embed_ok (page_content d))
          (filter_complex_metadata (to_documents chunks))
  = forallb (fun c => embed_ok (chunk_text c)) base.
Proof.
  intros H. rewrite (stored_documents _ _ H).
  clear. induction base as [|c base IH]; [reflexivity|]. simpl. now rewrite IH.
Qed.

(** What an ingestion does when every file parses, every document chunks,
    there is a chunk, the dictionary of every chunk builds and every chunk
    embeds. *)
Lemma ingest_files_appends
    (file_paths : list string) (documents : list DoclingDocument)
    (per_document : list (list BaseChunk)) (w : World) :
  Forall2 (fun p d => convert p = Ok d) file_paths documents ->
  Forall2 (fun d chunks => chunker_chunk (CHUNK_SIZE cfg) d = Ok chunks)
          documents per_document ->
  concat per_document <> [] ->
  forallb origin_dumps (concat per_document) = true ->
  forallb (fun c => embed_ok (chunk_text c)) (concat per_document) = true ->
  exists w',
    ingest_documents cfg convert chunker_chunk embed_ok (Some file_paths) w = (w', Ok tt) /\
    disk w' !! COLLECTION_NAME cfg
      = Some (default [] (disk w !! COLLECTION_NAME cfg)
              ++ map (fun c => mkDocument (chunk_text c) ∅) (concat per_document)) /\
    (forall name, name <> COLLECTION_NAME cfg -> disk w' !! name = disk w !! name) /\
    vectorstore w' = Some (COLLECTION_NAME cfg) /\
    converted w' = converted w ++ file_paths /\
    stdout w' = stdout w ++ ["Added chunks to existing vector store"] /\
    docs_dir w' = docs_dir w /\
    rag_pipeline w' = rag_pipeline w /\
    rag_system w' = rag_system w.
Proof.
  intros Hparse Hchunk Hne Horigin Hembed.
  apply collect_chunk_data_Ok_iff in Horigin as [chunks Hbuilt].
  unfold ingest_documents, ingest_files.
  rewrite (bind_Ok _ _ _ _ _ (process_documents_all_parse _ _ _ _ Hparse)).
  assert (Hchunks : chunk_documents chunker_chunk
                      (ChunkingStrategy_init (CHUNK_SIZE cfg) (CHUNK_OVERLAP cfg))
                      documents (set_converted (converted w ++ file_paths) w)
                    = (set_converted (converted w ++ file_paths) w, Ok chunks)).
  { rewrite <- Hbuilt. now apply chunk_documents_all_chunk. }
  rewrite (bind_Ok _ _ _ _ _ Hchunks).
  unfold try_except, load_vectorstore, add_documents, ensure_vectorstore,
    Chroma_open, Chroma_add_documents, print.
  run. rewrite (chunks_embed_iff _ _ Hbuilt), Hembed, (stored_documents _ _ Hbuilt).
  destruct (concat per_document) as [|c rest]; [contradiction|].
  simpl map.
  destruct (disk w !! COLLECTION_NAME cfg) as [old|] eqn:Hold; simpl;
    eexists; (split; [reflexivity|]); simpl; repeat split; try reflexivity.
  - now rewrite lookup_alter_eq, Hold.
  - intros name Hname. now rewrite lookup_alter_ne.
  - now rewrite lookup_alter_eq, lookup_insert_eq.
  - intros name Hname. rewrite lookup_alter_ne, lookup_insert_ne; auto.
Qed.

End Ingestion.

(** X4.  When every file parses, every document chunks, there is at least
    one chunk, no chunk has an [origin] that is [None] and every chunk
    embeds, [ingest_documents] returns normally; the configured collection
    then holds its earlier entries followed by one document per chunk, in
    the order of the files and chunks, other collections are as before,
    the store handle is open, and the message of the add branch has been
    printed. *)
Theorem ingest_appends_chunks_to_collection
    (cfg : Config) (convert : string -> result DoclingDocument)
    (chunker_chunk : nat -> DoclingDocument -> result (list BaseChunk))
    (embed_ok : string -> bool)
    (file_paths : list string) (documents : list DoclingDocument)
    (per_document : list (list BaseChunk)) (w : World) :
  Forall2 (fun p d => convert p = Ok d) file_paths documents ->
  Forall2 (fun d chunks => chunker_chunk (CHUNK_SIZE cfg) d = Ok chunks)
          documents per_document ->
  concat per_document <> [] ->
  forallb origin_dumps (concat per_document) = true ->
  forallb (fun c => embed_ok (chunk_text c)) (concat per_document) = true ->
  exists w',
    ingest_documents cfg convert chunker_chunk embed_ok (Some file_paths) w = (w', Ok tt) /\
    disk w' !! COLLECTION_NAME cfg
      = Some (default [] (disk w !! COLLECTION_NAME cfg)
              ++ map (fun c => mkDocument (chunk_text c) ∅) (concat per_document)) /\
    (forall name, name <> COLLECTION_NAME cfg -> disk w' !! name = disk w !! name) /\
    vectorstore w' = Some (COLLECTION_NAME cfg) /\
    converted w' = converted w ++ file_paths /\
    stdout w' = stdout w ++ ["Added chunks to existing vector store"] /\
    docs_dir w' = docs_dir w /\
    rag_pipeline w' = rag_pipeline w /\
    rag_system w' = rag_system w.
Proof. apply ingest_files_appends. Qed.

Lemma ingest_appends_chunks_to_collection_witness :
  exists w',
    ingest_documents Demo.cfg Demo.convert Demo.chunker_chunk Demo.embed_ok
      (Some ["docs/a.md"]) Demo.populated = (w', Ok tt) /\
    length <$> (disk w' !! "docling_rag") = Some 13%nat.
Proof.
  destruct (ingest_appends_chunks_to_collection Demo.cfg Demo.convert Demo.chunker_chunk
              Demo.embed_ok ["docs/a.md"] [mkDoclingDocument ["docs/a.md"] [] []]
              [[Demo.paragraph "docs/a.md"]] Demo.populated)
    as (w' & Hrun & Hdisk & _).
  - repeat constructor.
  - repeat constructor.
  - discriminate.
  - reflexivity.
  - reflexivity.
  - exists w'. split; [exact Hrun|].
    change (COLLECTION_NAME Demo.cfg) with "docling_rag" in Hdisk.
    rewrite Hdisk. reflexivity.
Defined.

(** X5.  Ingesting the same files twice stores their chunks twice: when
    there is at least one chunk, no chunk has an [origin] that is [None]
    and every chunk embeds, the collection holds after the second
    ingestion its earlier entries followed by the new documents and the
    same new documents again. *)
Theorem ingesting_twice_stores_chunks_twice
    (cfg : Config) (convert : string -> result DoclingDocument)
    (chunker_chunk : nat -> DoclingDocument -> result (list BaseChunk))
    (embed_ok : string -> bool)
    (file_paths : list string) (documents : list DoclingDocument)
    (per_document : list (list BaseChunk)) (w : World) :
  Forall2 (fun p d => convert p = Ok d) file_paths documents ->
  Forall2 (fun d chunks => chunker_chunk (CHUNK_SIZE cfg) d = Ok chunks)
          documents per_document ->
  concat per_document <> [] ->
  forallb origin_dumps (concat per_document) = true ->
  forallb (fun c => embed_ok (chunk_text c)) (concat per_document) = true ->
  exists w1 w2,
    ingest_documents cfg convert chunker_chunk embed_ok (Some file_paths) w = (w1, Ok tt) /\
    ingest_documents cfg convert chunker_chunk embed_ok (Some file_paths) w1 = (w2, Ok tt) /\
    disk w2 !! COLLECTION_NAME cfg
      = Some (default [] (disk w !! COLLECTION_NAME cfg)
              ++ map (fun c => mkDocument (chunk_text c) ∅) (concat per_document)
              ++ map (fun c => mkDocument (chunk_text c) ∅) (concat per_document)).
Proof.
  intros Hparse Hchunk Hne Horigin Hembed.
  destruct (ingest_files_appends cfg convert chunker_chunk embed_ok
              _ _ _ w Hparse Hchunk Hne Horigin Hembed) as (w1 & Hrun1 & Hdisk1 & _).
  destruct (ingest_files_appends cfg convert chunker_chunk embed_ok
              _ _ _ w1 Hparse Hchunk Hne Horigin Hembed) as (w2 & Hrun2 & Hdisk2 & _).
  exists w1, w2. split; [assumption|]. split; [assumption|].
  rewrite Hdisk2, Hdisk1. simpl. now rewrite <- app_assoc.
Qed.

Lemma ingesting_twice_stores_chunks_twice_witness :
  exists w1 w2,
    ingest_documents Demo.cfg Demo.convert Demo.chunker_chunk Demo.embed_ok
      (Some ["docs/a.md"]) Demo.fresh = (w1, Ok tt) /\
    ingest_documents Demo.cfg Demo.convert Demo.chunker_chunk Demo.embed_ok
      (Some ["docs/a.md"]) w1 = (w2, Ok tt) /\
    disk w2 !! COLLECTION_NAME Demo.cfg
      = Some (default [] (disk Demo.fresh !! COLLECTION_NAME Demo.cfg)
              ++ map (fun c => mkDocument (chunk_text c) ∅)
                     (concat [[Demo.paragraph "docs/a.md"]])
              ++ map (fun c => mkDocument (chunk_text c) ∅)
                     (concat [[Demo.paragraph "docs/a.md"]])).
Proof.
  apply (ingesting_twice_stores_chunks_twice Demo.cfg Demo.convert Demo.chunker_chunk
           Demo.embed_ok ["docs/a.md"] [mkDoclingDocument ["docs/a.md"] [] []]
           [[Demo.paragraph "docs/a.md"]] Demo.fresh).
  - repeat constructor.
  - repeat constructor.
  - discriminate.
  - reflexivity.
  - reflexivity.
Defined.

(** ** Queries that succeed *)

(** X10.  On an open store handle, with no pipeline or the pipeline the
    system builds, a question that embeds and a language model that
    answers make [DoclingRAGSystem.query] return: the response is built
    from the ten best entries of the collection, the same entries whose
    texts formed the context of the prompt, and the only change of state
    is the pipeline being kept. *)
Theorem query_on_open_store_succeeds
    (cfg : Config) (summation : Summation) (embed_ok : string -> bool)
    (relevance : string -> string -> float)
    (llm : string -> string -> result string)
    (question : string) (verbose : bool) (handle answer : string) (w : World) :
  vectorstore w = Some handle ->
  (rag_pipeline w = None \/
   rag_pipeline w = Some (mkRAGPipeline handle 10 (LLM_MODEL cfg))) ->
  embed_ok question = true ->
  llm (LLM_MODEL cfg)
      (prompt_format
         (_format_docs
            (map fst (ten_best relevance question (default [] (disk w !! handle)))))
         question) = Ok answer ->
  DoclingRAGSystem_query cfg summation embed_ok relevance llm question verbose w
    = (set_rag_pipeline (Some (mkRAGPipeline handle 10 (LLM_MODEL cfg))) w,
       Ok (format_response summation question answer
             (ten_best relevance question (default [] (disk w !! handle))))).
Proof.
  intros Hv Hp Hq Hllm.
  unfold DoclingRAGSystem_query, initialize_rag, RAGPipeline_init, as_retriever,
    ensure_vectorstore, RAGPipeline_query, rag_chain_invoke, retriever_invoke,
    similarity_search_with_relevance_scores.
  unfold ten_best in *.
  destruct Hp as [Hp|Hp]; run;
    repeat (progress (rewrite ?Hp, ?Hv, ?Hq; simpl)); rewrite Hllm.
  - reflexivity.
  - f_equal. destruct w; simpl in *. unfold set_rag_pipeline. simpl. now rewrite Hp.
Qed.

Lemma query_on_open_store_succeeds_witness :
  exists answer,
    DoclingRAGSystem_query Demo.cfg Demo.summation Demo.embed_ok Demo.relevance Demo.llm
      "q" false Demo.opened
    = (set_rag_pipeline (Some (mkRAGPipeline "docling_rag" 10 (LLM_MODEL Demo.cfg))) Demo.opened,
       Ok (format_response Demo.summation "q" answer
             (ten_best Demo.relevance "q" (default [] (disk Demo.opened !! "docling_rag"))))).
Proof.
  eexists.
  apply (query_on_open_store_succeeds Demo.cfg Demo.summation Demo.embed_ok
           Demo.relevance Demo.llm "q" false "docling_rag").
  - reflexivity.
  - left. reflexivity.
  - reflexivity.
  - reflexivity.
Defined.

(** X11.  A query on a system that never ingested anything does not
    fail: the store is opened, which creates the configured collection
    empty, the language model is asked with an empty context, and the
    response has no sources, [retrieved_chunks = 0] and
    [average_relevance = 0]. *)
Theorem query_before_any_ingestion_returns_no_sources
    (cfg : Config) (summation : Summation) (embed_ok : string -> bool)
    (relevance : string -> string -> float)
    (llm : string -> string -> result string)
    (question : string) (verbose : bool) (answer : string) (w : World) :
  vectorstore w = None ->
  rag_pipeline w = None ->
  disk w !! COLLECTION_NAME cfg = None ->
  embed_ok question = true ->
  llm (LLM_MODEL cfg) (prompt_format EmptyString question) = Ok answer ->
  exists w',
    DoclingRAGSystem_query cfg summation embed_ok relevance llm question verbose w
      = (w', Ok (mkResponse question answer []
                   (mkMetrics 0 0 (String.length answer)))) /\
    disk w' = <[COLLECTION_NAME cfg := []]> (disk w) /\
    vectorstore w' = Some (COLLECTION_NAME cfg).
Proof.
  intros Hv Hp Hd Hq Hllm.
  unfold DoclingRAGSystem_query, initialize_rag, RAGPipeline_init, as_retriever,
    ensure_vectorstore, load_vectorstore, Chroma_open, RAGPipeline_query,
    rag_chain_invoke, retriever_invoke, similarity_search_with_relevance_scores.
  run.
  repeat (progress (rewrite ?Hp, ?Hv, ?Hd, ?Hq, ?lookup_insert_eq; simpl)).
  change (_format_docs []) with EmptyString. rewrite Hllm.
  eexists. split; [reflexivity|]. split; reflexivity.
Qed.

Lemma query_before_any_ingestion_returns_no_sources_witness :
  exists answer w',
    DoclingRAGSystem_query Demo.cfg Demo.summation Demo.embed_ok Demo.relevance Demo.llm
      "q" false Demo.fresh
      = (w', Ok (mkResponse "q" answer [] (mkMetrics 0 0 (String.length answer)))) /\
    disk w' = <[COLLECTION_NAME Demo.cfg := []]> (disk Demo.fresh) /\
    vectorstore w' = Some (COLLECTION_NAME Demo.cfg).
Proof.
  eexists.
  apply (query_before_any_ingestion_returns_no_sources Demo.cfg Demo.summation Demo.embed_ok
           Demo.relevance Demo.llm "q" false); reflexivity.
Defined.

(** ** The endpoints *)

Section Endpoints.

Variable cfg : Config.
Variable convert : string -> result DoclingDocument.
Variable chunker_chunk : nat -> DoclingDocument -> result (list BaseChunk).
Variable summation : Summation.
Variable embed_ok : string -> bool.
Variable relevance : string -> string -> float.
Variable llm : string -> string -> result string.

Lemma get_rag_system_constructed w :
  rag_system w = true -> get_rag_system cfg w = (w, Ok tt).
Proof. intros H. unfold get_rag_system. run. now rewrite H. Qed.

Lemma get_rag_system_without_key w :
  rag_system w = false -> GROQ_API_KEY cfg = EmptyString ->
  get_rag_system cfg w
    = (w, Raise (ValueError "GROQ_API_KEY is required. Please set it in .env file")).
Proof.
  intros H Hkey. unfold get_rag_system, DoclingRAGSystem_init, Config_validate.
  run. now rewrite H, Hkey.
Qed.

Lemma get_rag_system_with_key w :
  rag_system w = false -> GROQ_API_KEY cfg <> EmptyString ->
  get_rag_system cfg w
    = (set_rag_system true (set_rag_pipeline None (set_vectorstore None w)), Ok tt).
Proof.
  intros H Hkey. unfold get_rag_system, DoclingRAGSystem_init, Config_validate.
  run. rewrite H. apply String.eqb_neq in Hkey. now rewrite Hkey.
Qed.

(** What a successful [get_rag_system] leaves. *)
Lemma get_rag_system_Ok w w1 :
  get_rag_system cfg w = (w1, Ok tt) ->
  rag_system w1 = true /\
  (rag_system w = true -> w1 = w) /\
  get_rag_system cfg w1 = (w1, Ok tt) /\
  disk w1 = disk w /\ docs_dir w1 = docs_dir w /\
  stdout w1 = stdout w /\ converted w1 = converted w.
Proof.
  intros H. destruct (rag_system w) eqn:Hs.
  - rewrite get_rag_system_constructed in H by assumption. inversion H; subst w1.
    repeat split; try assumption. now apply get_rag_system_constructed.
  - destruct (String.eqb_spec (GROQ_API_KEY cfg) EmptyString) as [Hkey|Hkey].
    + rewrite get_rag_system_without_key in H by assumption. discriminate.
    + rewrite get_rag_system_with_key in H by assumption. inversion H; subst w1.
      repeat split; try reflexivity; try discriminate.
Qed.

Lemma ingest_nothing_discovered w :
  (forall names, docs_dir w = Some names ->
                 flat_map (glob_ext names) supported_extensions = []) ->
  exists out,
    out <> [] /\
    ingest_documents cfg convert chunker_chunk embed_ok None w
      = (set_stdout (stdout w ++ out) w, Ok tt).
Proof.
  intros H. unfold ingest_documents.
  destruct (docs_dir w) as [names|] eqn:Hdir.
  - eexists [_; _]. split; [discriminate|].
    unfold bind at 1, get. rewrite Hdir, (H names eq_refl).
    unfold print. run. unfold set_stdout. simpl.
    now rewrite <- app_assoc.
  - eexists [_]. split; [discriminate|].
    unfold bind at 1, get. rewrite Hdir. reflexivity.
Qed.

End Endpoints.

(** X15.  [get_rag_system] constructs the system once: a call that
    returns leaves the module global set, a later call changes nothing,
    and a call on a constructed system changes nothing either, so the
    store handle and the pipeline are not reset; the vector store and the
    [docs] folder are never touched. *)
Theorem get_rag_system_constructs_once (cfg : Config) (w w1 : World) :
  get_rag_system cfg w = (w1, Ok tt) ->
  rag_system w1 = true /\
  (rag_system w = true -> w1 = w) /\
  get_rag_system cfg w1 = (w1, Ok tt) /\
  disk w1 = disk w /\ docs_dir w1 = docs_dir w.
Proof.
  intros H. apply get_rag_system_Ok in H. tauto.
Qed.

Lemma get_rag_system_constructs_once_witness :
  exists w1,
    get_rag_system Demo.cfg Demo.populated = (w1, Ok tt) /\
    rag_system w1 = true /\
    (rag_system Demo.populated = true -> w1 = Demo.populated) /\
    get_rag_system Demo.cfg w1 = (w1, Ok tt) /\
    disk w1 = disk Demo.populated /\ docs_dir w1 = docs_dir Demo.populated.
Proof.
  eexists. split; [reflexivity|].
  apply (get_rag_system_constructs_once Demo.cfg Demo.populated). reflexivity.
Defined.

(** X16.  Without an API key the system cannot be constructed: every
    query to the endpoint is answered with status 500 and the message of
    the configuration error, and the state is left as it was, so the next
    request tries again. *)
Theorem query_without_api_key_is_500
    (cfg : Config) (summation : Summation) (embed_ok : string -> bool)
    (relevance : string -> string -> float)
    (llm : string -> string -> result string)
    (request : QueryRequest) (w : World) :
  rag_system w = false ->
  GROQ_API_KEY cfg = EmptyString ->
  query_documents cfg summation embed_ok relevance llm request w
    = (w, Raise (HTTPException 500
         "Error processing query: GROQ_API_KEY is required. Please set it in .env file")).
Proof.
  intros Hs Hkey. unfold query_documents, try_except.
  rewrite (bind_Raise _ _ _ _ _ (get_rag_system_without_key cfg _ Hs Hkey)).
  reflexivity.
Qed.

Lemma query_without_api_key_is_500_witness :
  query_documents Demo.no_key Demo.summation Demo.embed_ok Demo.relevance Demo.llm
    (QueryRequest_parse "q" None) Demo.populated
    = (Demo.populated, Raise (HTTPException 500
         "Error processing query: GROQ_API_KEY is required. Please set it in .env file")).
Proof.
  apply (query_without_api_key_is_500 Demo.no_key); reflexivity.
Defined.

(** X17.  When the [docs] folder has no file with a dot in its name, the
    query endpoint refuses the request with status 400 right after the
    system is there: nothing is retrieved and the language model is not
    asked. *)
Theorem query_without_uploads_is_400
    (cfg : Config) (summation : Summation) (embed_ok : string -> bool)
    (relevance : string -> string -> float)
    (llm : string -> string -> result string)
    (request : QueryRequest) (w w1 : World) :
  get_rag_system cfg w = (w1, Ok tt) ->
  (forall name, In name (default [] (docs_dir w)) -> contains_dot name = false) ->
  query_documents cfg summation embed_ok relevance llm request w
    = (w1, Raise (HTTPException 400
         "No documents uploaded. Please upload documents first using /upload endpoint.")).
Proof.
  intros Hsys Hnone.
  pose proof (get_rag_system_Ok _ _ _ Hsys) as (_ & _ & _ & _ & Hdocs & _).
  unfold query_documents, try_except.
  rewrite (bind_Ok _ _ _ _ _ Hsys). run. rewrite Hdocs.
  assert (Hglob : glob_any (default [] (docs_dir w)) = []).
  { unfold glob_any. induction (default [] (docs_dir w)) as [|n names IH]; [reflexivity|].
    rewrite filter_cons_False.
    - apply IH. intros name Hin. apply Hnone. now right.
    - rewrite (Hnone n); [discriminate | now left]. }
  rewrite Hglob. reflexivity.
Qed.

Lemma query_without_uploads_is_400_witness :
  exists w1,
    query_documents Demo.cfg Demo.summation Demo.embed_ok Demo.relevance Demo.llm
      (QueryRequest_parse "q" None) Demo.fresh
    = (w1, Raise (HTTPException 400
         "No documents uploaded. Please upload documents first using /upload endpoint.")).
Proof.
  eexists.
  apply (query_without_uploads_is_400 Demo.cfg Demo.summation Demo.embed_ok
           Demo.relevance Demo.llm).
  - reflexivity.
  - intros name [].
Defined.

(** X18.  Whatever the store, the embedding or the language model raise,
    the exception that leaves the query endpoint is an [HTTPException]. *)
Theorem query_documents_raises_only_http
    (cfg : Config) (summation : Summation) (embed_ok : string -> bool)
    (relevance : string -> string -> float)
    (llm : string -> string -> result string)
    (request : QueryRequest) (w w' : World) (e : exn) :
  query_documents cfg summation embed_ok relevance llm request w = (w', Raise e) ->
  exists status_code detail, e = HTTPException status_code detail.
Proof.
  unfold query_documents, try_except. intros H.
  match type of H with
  | (match ?body with _ => _ end) = _ => destruct body as [w2 [r|e0]]
  end; [discriminate|].
  destruct e0; unfold raise in H; inversion H; eauto.
Qed.

Lemma query_documents_raises_only_http_witness :
  exists status_code detail,
    LibraryError "model overloaded" <> HTTPException status_code detail /\
    exists w' e,
      query_documents Demo.cfg Demo.summation Demo.embed_ok Demo.relevance
        (fun _ _ => Raise (LibraryError "model overloaded"))
        (QueryRequest_parse "q" None) Demo.populated = (w', Raise e) /\
      e = HTTPException status_code detail.
Proof.
  assert (Hrun : { out : World * exn |
            query_documents Demo.cfg Demo.summation Demo.embed_ok Demo.relevance
              (fun _ _ => Raise (LibraryError "model overloaded"))
              (QueryRequest_parse "q" None) Demo.populated = (fst out, Raise (snd out)) }).
  { eexists (_, _). reflexivity. }
  destruct Hrun as [[w' e] Hrun]. simpl in Hrun.
  destruct (query_documents_raises_only_http _ _ _ _ _ _ _ _ _ Hrun)
    as (code & detail & He).
  exists code, detail. split; [discriminate|]. exists w', e. auto.
Defined.

(** X19.  With the system there, [GET /status] answers [ready] and counts
    as documents the files of the [docs] folder whose names end with a
    supported extension, each once; the model it names is fixed, whatever
    [LLM_MODEL] is configured. *)
Theorem status_counts_supported_files
    (cfg : Config) (names : list string) (w w1 : World) :
  docs_dir w = Some names ->
  NoDup names ->
  get_rag_system cfg w = (w1, Ok tt) ->
  get_status cfg w
    = (w1, Ok (mkStatusResponse "ready"
                 (length (filter (fun n => has_supported_extension n = true) names))
                 None "llama-3.3-70b-versatile"
                 ("System ready with "
                  +:+ decimal (N.of_nat
                        (length (filter (fun n => has_supported_extension n = true) names)))
                  +:+ " documents"))).
Proof.
  intros Hdir Hnames Hsys.
  pose proof (discovery_length names Hnames) as Hlen.
  unfold get_status, try_except.
  unfold bind at 1, get. rewrite Hdir. simpl default.
  rewrite (bind_Ok _ _ _ _ _ Hsys). unfold ret. now rewrite Hlen.
Qed.

Lemma status_counts_supported_files_witness :
  exists w1,
    get_status Demo.cfg Demo.three_files
    = (w1, Ok (mkStatusResponse "ready" 2 None "llama-3.3-70b-versatile"
                 "System ready with 2 documents")).
Proof.
  eexists.
  apply (status_counts_supported_files Demo.cfg ["report.pdf"; "notes.txt"; "table.csv"]).
  - reflexivity.
  - refine (bool_decide_unpack (NoDup ["report.pdf"; "notes.txt"; "table.csv"]) _).
    vm_compute. exact I.
  - reflexivity.
Defined.

(** X20.  When there is nothing to discover, [POST /ingest-all] still
    answers that all documents were processed: the ingestion printed its
    message and returned, nothing was parsed and the store is as it was. *)
Theorem ingest_all_without_files_reports_success
    (cfg : Config) (convert : string -> result DoclingDocument)
    (chunker_chunk : nat -> DoclingDocument -> result (list BaseChunk))
    (embed_ok : string -> bool) (w w1 : World) :
  get_rag_system cfg w = (w1, Ok tt) ->
  (forall names, docs_dir w = Some names ->
                 flat_map (glob_ext names) supported_extensions = []) ->
  exists out,
    out <> [] /\
    ingest_all_documents cfg convert chunker_chunk embed_ok w
      = (set_stdout (stdout w1 ++ out) w1,
         Ok (mkIngestAllResponse "All documents processed successfully" "complete")) /\
    disk (set_stdout (stdout w1 ++ out) w1) = disk w /\
    converted (set_stdout (stdout w1 ++ out) w1) = converted w.
Proof.
  intros Hsys Hnone.
  pose proof (get_rag_system_Ok _ _ _ Hsys) as (_ & _ & _ & Hdisk & Hdocs & _ & Hconv).
  destruct (ingest_nothing_discovered cfg convert chunker_chunk embed_ok w1)
    as (out & Hout & Hrun).
  { intros names Hnames. apply Hnone. now rewrite <- Hdocs. }
  exists out. split; [assumption|]. split; [|split; assumption].
  unfold ingest_all_documents, try_except.
  rewrite (bind_Ok _ _ _ _ _ Hsys), (bind_Ok _ _ _ _ _ Hrun). reflexivity.
Qed.

Lemma ingest_all_without_files_reports_success_witness :
  exists w1 out,
    out <> [] /\
    ingest_all_documents Demo.cfg Demo.convert Demo.chunker_chunk Demo.embed_ok Demo.only_notes
      = (set_stdout (stdout w1 ++ out) w1,
         Ok (mkIngestAllResponse "All documents processed successfully" "complete")) /\
    disk (set_stdout (stdout w1 ++ out) w1) = disk Demo.only_notes /\
    converted (set_stdout (stdout w1 ++ out) w1) = converted Demo.only_notes.
Proof.
  eexists.
  apply (ingest_all_without_files_reports_success Demo.cfg Demo.convert Demo.chunker_chunk
           Demo.embed_ok Demo.only_notes).
  - reflexivity.
  - intros names H. inversion H. reflexivity.
Defined.

(** X21.  Deleting a document that is in the [docs] folder removes that
    name from the folder and nothing else: the other files stay, and the
    vector store, the store handle and the pipeline are untouched, so the
    chunks of the deleted document stay in the collection.  A name that
    is not in the folder gives status 404 and changes nothing. *)
Theorem delete_document_removes_the_file_only
    (filename : string) (names : list string) (w : World) :
  docs_dir w = Some names ->
  filename <> "." -> filename <> ".." ->
  (In filename names ->
   exists w',
     delete_document filename w
       = (w', Ok (mkDeleteResponse "Document deleted successfully" filename)) /\
     (forall n, In n (default [] (docs_dir w')) <-> In n names /\ n <> filename) /\
     disk w' = disk w /\ vectorstore w' = vectorstore w /\
     rag_pipeline w' = rag_pipeline w) /\
  (~ In filename names ->
   delete_document filename w = (w, Raise (HTTPException 404 "Document not found"))).
Proof.
  intros Hdir Hdot Hdotdot.
  apply String.eqb_neq in Hdot, Hdotdot.
  split; intros Hin; unfold delete_document, try_except; run;
    rewrite Hdir, Hdot, Hdotdot; simpl.
  - assert (Hex : existsb (String.eqb filename) names = true).
    { apply existsb_exists. exists filename. split; [assumption | apply String.eqb_refl]. }
    rewrite Hex. simpl. eexists. split; [reflexivity|]. simpl.
    split; [|repeat split; reflexivity].
    intros n. rewrite <- !list_elem_of_In, list_elem_of_filter. tauto.
  - assert (Hex : existsb (String.eqb filename) names = false).
    { apply not_true_is_false. intros Hex. apply existsb_exists in Hex as (n & Hn & Heq).
      apply String.eqb_eq in Heq. subst n. contradiction. }
    rewrite Hex. reflexivity.
Qed.

Lemma delete_document_removes_the_file_only_witness :
  (exists w',
     delete_document "report.pdf" Demo.populated
       = (w', Ok (mkDeleteResponse "Document deleted successfully" "report.pdf")) /\
     (forall n, In n (default [] (docs_dir w')) <-> In n ["report.pdf"] /\ n <> "report.pdf") /\
     disk w' = disk Demo.populated /\ vectorstore w' = vectorstore Demo.populated /\
     rag_pipeline w' = rag_pipeline Demo.populated).
Proof.
  apply (delete_document_removes_the_file_only "report.pdf" ["report.pdf"] Demo.populated).
  - reflexivity.
  - discriminate.
  - discriminate.
  - now left.
Defined.

(** ** An invariant of the process state *)

Section Triples.

Variable I : World -> Prop.

Lemma triple_ret {A} (a : A) (Q : A -> Prop) : Q a -> triple I (ret a) Q.
Proof. intros HQ w w' r H HI. inversion H; subst. auto. Qed.

Lemma triple_raise {A} (e : exn) (Q : A -> Prop) : triple I (raise e) Q.
Proof. intros w w' r H HI. inversion H; subst. auto. Qed.

Lemma triple_lift {A} (r : result A) : triple I (lift_result r) (fun _ => True).
Proof. intros w w' r' H HI. inversion H; subst. split; [assumption | now destruct r']. Qed.

Lemma triple_modify (f : World -> World) :
  (forall w, I w -> I (f w)) -> triple I (modify f) (fun _ => True).
Proof. intros Hf w w' r H HI. inversion H; subst. auto. Qed.

Lemma triple_bind {A B} (m : Py A) (k : A -> Py B) (Q : A -> Prop) (R : B -> Prop) :
  triple I m Q -> (forall a, Q a -> triple I (k a) R) -> triple I (bind m k) R.
Proof.
  intros Hm Hk w w' r H HI. unfold bind in H.
  destruct (m w) as [w1 [a|e]] eqn:Hrun.
  - destruct (Hm _ _ _ Hrun HI) as [HI1 HQ]. exact (Hk a HQ _ _ _ H HI1).
  - inversion H; subst. destruct (Hm _ _ _ Hrun HI) as [HI1 _]. auto.
Qed.

(** [get] hands the state to a continuation that may use [I] of it. *)
Lemma triple_get_bind {B} (k : World -> Py B) (R : B -> Prop) :
  (forall w0, I w0 -> forall w' r, k w0 w0 = (w', r) ->
     I w' /\ match r with Ok b => R b | Raise _ => True end) ->
  triple I (bind get k) R.
Proof. intros Hk w w' r H HI. unfold bind, get in H. exact (Hk w HI _ _ H). Qed.

Lemma triple_try_except {A} (body : Py A) (catches : exn -> bool)
      (handler : exn -> Py A) (Q : A -> Prop) :
  triple I body Q -> (forall e, triple I (handler e) Q) ->
  triple I (try_except body catches handler) Q.
Proof.
  intros Hb Hh w w' r H HI. unfold try_except in H.
  destruct (body w) as [w1 [a|e]] eqn:Hrun.
  - inversion H; subst. exact (Hb _ _ _ Hrun HI).
  - destruct (Hb _ _ _ Hrun HI) as [HI1 _].
    destruct (catches e).
    + exact (Hh e _ _ _ H HI1).
    + inversion H; subst. auto.
Qed.

Lemma triple_for_each {A B} (f : A -> Py B) (l : list A) :
  (forall x, triple I (f x) (fun _ => True)) ->
  triple I (for_each f l) (fun _ => True).
Proof.
  intros Hf. induction l as [|x l IH]; simpl.
  - now apply triple_ret.
  - eapply triple_bind; [apply Hf|]. intros y _.
    eapply triple_bind; [apply IH|]. intros ys _. now apply triple_ret.
Qed.

Lemma triple_weaken {A} (m : Py A) (Q Q' : A -> Prop) :
  triple I m Q -> (forall a, Q a -> Q' a) -> triple I m Q'.
Proof.
  intros Hm HQ w w' r H HI. destruct (Hm _ _ _ H HI) as [HI' Hr].
  split; [assumption|]. destruct r; auto.
Qed.

End Triples.

Section Consistency.

Variable cfg : Config.
Variable convert : string -> result DoclingDocument.
Variable chunker_chunk : nat -> DoclingDocument -> result (list BaseChunk).
Variable summation : Summation.
Variable embed_ok : string -> bool.
Variable relevance : string -> string -> float.
Variable llm : string -> string -> result string.

Local Abbreviation Inv := (consistent cfg).

Ltac frame := intros [] [Hhandle Hpipeline]; split; simpl in *; auto.

(** After [get]: continue with a triple for the rest, keeping what is
    known of the state read. *)
Ltac read_state w0 Hw0 :=
  apply triple_get_bind; intros w0 Hw0;
  let w' := fresh "w'" in let r := fresh "r" in
  let H := fresh "H" in let Hc := fresh "Hc" in
  intros w' r H; pose proof Hw0 as Hc; revert w' r H Hc;
  refine ((_ : triple (consistent cfg) _ _) w0).

Lemma consistent_set_disk d w : Inv w -> Inv (set_disk d w).
Proof. revert w. frame. Qed.
Lemma consistent_set_stdout o w : Inv w -> Inv (set_stdout o w).
Proof. revert w. frame. Qed.
Lemma consistent_set_converted c w : Inv w -> Inv (set_converted c w).
Proof. revert w. frame. Qed.
Lemma consistent_set_rag_system b w : Inv w -> Inv (set_rag_system b w).
Proof. revert w. frame. Qed.
Lemma consistent_open w : Inv w -> Inv (set_vectorstore (Some (COLLECTION_NAME cfg)) w).
Proof. revert w. frame. intros handle H. now inversion H. Qed.
Lemma consistent_close w : Inv w -> Inv (set_vectorstore None w).
Proof. revert w. frame. discriminate. Qed.
Lemma consistent_no_pipeline w : Inv w -> Inv (set_rag_pipeline None w).
Proof. revert w. frame. discriminate. Qed.
Lemma consistent_pipeline w :
  Inv w -> Inv (set_rag_pipeline (Some (mkRAGPipeline (COLLECTION_NAME cfg) 10 (LLM_MODEL cfg))) w).
Proof. revert w. frame. intros p H. now inversion H. Qed.

Lemma triple_print s : triple Inv (print s) (fun _ => True).
Proof. apply triple_modify. intros w. apply consistent_set_stdout. Qed.

Lemma triple_process_documents file_paths :
  triple Inv (process_documents convert file_paths) (fun _ => True).
Proof.
  apply triple_for_each. intros p. unfold process_document.
  eapply triple_bind.
  - apply triple_modify. intros w. apply consistent_set_converted.
  - intros _ _. eapply triple_bind; [apply triple_lift|].
    intros doc _. now apply triple_ret.
Qed.

Lemma triple_chunk_documents self documents :
  triple Inv (chunk_documents chunker_chunk self documents) (fun _ => True).
Proof.
  unfold chunk_documents. eapply triple_bind.
  - apply triple_for_each. intros d. unfold chunk_document.
    eapply triple_bind; [apply triple_lift|]. intros cs _.
    apply (triple_weaken _ _ (fun _ => True)); [|auto].
    apply triple_for_each. intros c. apply triple_lift.
  - intros per_doc _. now apply triple_ret.
Qed.

Lemma triple_Chroma_open name :
  triple Inv (Chroma_open name) (fun handle => handle = name).
Proof.
  unfold Chroma_open. eapply triple_bind.
  - apply triple_modify. intros w Hw.
    destruct (disk w !! name); [assumption | now apply consistent_set_disk].
  - intros _ _. now apply triple_ret.
Qed.

Lemma triple_Chroma_add_documents handle documents :
  triple Inv (Chroma_add_documents embed_ok handle documents) (fun _ => True).
Proof.
  unfold Chroma_add_documents. destruct (forallb _ _); [|apply triple_raise].
  destruct documents; [apply triple_raise|].
  apply triple_modify. intros w. apply consistent_set_disk.
Qed.

Lemma triple_load_vectorstore :
  triple Inv (load_vectorstore cfg) (fun handle => handle = COLLECTION_NAME cfg).
Proof.
  unfold load_vectorstore. eapply triple_bind; [apply triple_Chroma_open|].
  intros handle ->. eapply triple_bind.
  - apply triple_modify. intros w. apply consistent_open.
  - intros _ _. now apply triple_ret.
Qed.

Lemma triple_create_vectorstore chunks :
  triple Inv (create_vectorstore cfg embed_ok chunks)
         (fun handle => handle = COLLECTION_NAME cfg).
Proof.
  unfold create_vectorstore, Chroma_from_documents.
  eapply triple_bind.
  - eapply triple_bind; [apply triple_Chroma_open|]. intros handle ->.
    eapply triple_bind; [apply triple_Chroma_add_documents|].
    intros _ _. apply (triple_ret _ _ (fun h => h = COLLECTION_NAME cfg)). reflexivity.
  - intros handle ->. eapply triple_bind.
    + apply triple_modify. intros w. apply consistent_open.
    + intros _ _. now apply triple_ret.
Qed.

Lemma triple_ensure_vectorstore :
  triple Inv (ensure_vectorstore cfg) (fun handle => handle = COLLECTION_NAME cfg).
Proof.
  unfold ensure_vectorstore. read_state w0 Hw0.
  destruct (vectorstore w0) as [handle|] eqn:Hv.
  - apply triple_ret. now apply Hw0.
  - apply triple_load_vectorstore.
Qed.

Lemma triple_add_documents chunks :
  triple Inv (add_documents cfg embed_ok chunks) (fun _ => True).
Proof.
  unfold add_documents. eapply triple_bind; [apply triple_ensure_vectorstore|].
  intros handle _. apply triple_Chroma_add_documents.
Qed.

Lemma triple_search handle question k :
  triple Inv (similarity_search_with_relevance_scores embed_ok relevance handle question k)
         (fun _ => True).
Proof.
  intros w w' r H Hw. apply search_keeps_world in H as Heq. subst w'.
  split; [assumption | now destruct r].
Qed.

Lemma triple_rag_chain_invoke self question :
  triple Inv (rag_chain_invoke embed_ok relevance llm self question) (fun _ => True).
Proof.
  unfold rag_chain_invoke, retriever_invoke.
  eapply triple_bind.
  - eapply triple_bind; [apply triple_search|]. intros hits _.
    apply (triple_ret _ _ (fun _ => True)). exact I.
  - intros docs _. apply triple_lift.
Qed.

Lemma triple_RAGPipeline_query self question :
  triple Inv (RAGPipeline_query summation embed_ok relevance llm self question) (fun _ => True).
Proof.
  unfold RAGPipeline_query. read_state w0 Hw0.
  apply (triple_bind Inv _ _ (fun _ => True)); [|intros hits _].
  - destruct (vectorstore w0); [apply triple_search | apply triple_raise].
  - eapply triple_bind; [apply triple_rag_chain_invoke|].
    intros answer _. now apply triple_ret.
Qed.

Lemma triple_initialize_rag :
  triple Inv (initialize_rag cfg) (fun _ => True).
Proof.
  unfold initialize_rag. read_state w0 Hw0.
  destruct (rag_pipeline w0).
  - now apply triple_ret.
  - apply (triple_bind Inv _ _
             (fun p => p = mkRAGPipeline (COLLECTION_NAME cfg) 10 (LLM_MODEL cfg))).
    + unfold RAGPipeline_init, as_retriever.
      eapply triple_bind.
      * eapply triple_bind; [apply triple_ensure_vectorstore|].
        intros handle ->.
        apply (triple_ret _ _ (fun r => r = (COLLECTION_NAME cfg, 10%nat))). reflexivity.
      * intros retriever ->. now apply triple_ret.
    + intros p ->. apply triple_modify. intros w. apply consistent_pipeline.
Qed.

Lemma triple_DoclingRAGSystem_query question verbose :
  triple Inv (DoclingRAGSystem_query cfg summation embed_ok relevance llm question verbose)
         (fun _ => True).
Proof.
  unfold DoclingRAGSystem_query. read_state w0 Hw0.
  apply (triple_bind Inv _ _ (fun _ => True)).
  - destruct (rag_pipeline w0); [now apply triple_ret | apply triple_initialize_rag].
  - intros _ _. read_state w1 Hw1.
    destruct (rag_pipeline w1).
    + apply triple_RAGPipeline_query. 
    + apply triple_raise.
Qed.

Lemma triple_ingest_documents file_paths :
  triple Inv (ingest_documents cfg convert chunker_chunk embed_ok file_paths) (fun _ => True).
Proof.
  assert (Hfiles : forall paths,
            triple Inv (ingest_files cfg convert chunker_chunk embed_ok paths) (fun _ => True)).
  { intros paths. unfold ingest_files.
    eapply triple_bind; [apply triple_process_documents|]. intros documents _.
    eapply triple_bind; [apply triple_chunk_documents|]. intros chunks _.
    apply triple_try_except.
    - eapply triple_bind; [apply triple_load_vectorstore|]. intros _ _.
      eapply triple_bind; [apply triple_add_documents|]. intros _ _.
      apply triple_print.
    - intros e. eapply triple_bind; [apply triple_create_vectorstore|]. intros _ _.
      apply triple_print. }
  unfold ingest_documents. destruct file_paths as [paths|]; [apply Hfiles|].
  read_state w0 Hw0. destruct (docs_dir w0) as [names|]; [|apply triple_print].
  destruct (flat_map (glob_ext names) supported_extensions) eqn:Hfound.
  - eapply triple_bind; [apply triple_print|]. intros _ _. apply triple_print.
  - apply Hfiles.
Qed.

Lemma triple_get_rag_system : triple Inv (get_rag_system cfg) (fun _ => True).
Proof.
  unfold get_rag_system. read_state w0 Hw0.
  destruct (rag_system w0); [now apply triple_ret|].
  eapply triple_bind.
  - unfold DoclingRAGSystem_init, Config_validate.
    apply (triple_bind Inv _ _ (fun _ => True)).
    + destruct (String.eqb _ _); [apply triple_raise | now apply triple_ret].
    + intros _ _. eapply triple_bind.
      * apply triple_modify. intros w. apply consistent_close.
      * intros _ _. apply triple_modify. intros w. apply consistent_no_pipeline.
  - intros _ _. apply triple_modify. intros w. apply consistent_set_rag_system.
Qed.

Lemma triple_query_documents request :
  triple Inv (query_documents cfg summation embed_ok relevance llm request) (fun _ => True).
Proof.
  unfold query_documents. apply triple_try_except.
  - eapply triple_bind; [apply triple_get_rag_system|]. intros _ _.
    read_state w0 Hw0. destruct (_ =? _)%nat; [apply triple_raise|].
    eapply triple_bind; [apply triple_DoclingRAGSystem_query|].
    intros result _. now apply triple_ret.
  - intros e. destruct e; apply triple_raise.
Qed.

Lemma triple_get_status : triple Inv (get_status cfg) (fun _ => True).
Proof.
  unfold get_status. apply triple_try_except.
  - read_state w0 Hw0.
    eapply triple_bind; [apply triple_get_rag_system|]. intros _ _. now apply triple_ret.
  - intros e. apply triple_raise.
Qed.

Lemma triple_ingest_all_documents :
  triple Inv (ingest_all_documents cfg convert chunker_chunk embed_ok) (fun _ => True).
Proof.
  unfold ingest_all_documents. apply triple_try_except.
  - eapply triple_bind; [apply triple_get_rag_system|]. intros _ _.
    eapply triple_bind; [apply triple_ingest_documents|]. intros _ _. now apply triple_ret.
  - intros e. apply triple_raise.
Qed.

Lemma triple_delete_document filename :
  triple Inv (delete_document filename) (fun _ => True).
Proof.
  unfold delete_document. apply triple_try_except.
  - read_state w0 Hw0. destruct (docs_dir w0) as [names|]; [|apply triple_raise].
    destruct (_ || _); [apply triple_raise|].
    destruct (existsb _ _); [|apply triple_raise].
    eapply triple_bind.
    + apply triple_modify. intros [] [Hhandle Hpipeline]. split; simpl in *; auto.
    + intros _ _. now apply triple_ret.
  - intros e. destruct e; apply triple_raise.
Qed.

(** X14.  Ingestion, queries and the endpoints keep the state
    consistent, whether they return or raise: an open store handle is on
    the configured collection, and a pipeline that has been built
    retrieves ten entries from that collection for the configured
    model. *)
Theorem operations_keep_the_state_consistent (w : World) :
  consistent cfg w ->
  (forall file_paths w' r,
     ingest_documents cfg convert chunker_chunk embed_ok file_paths w = (w', r) ->
     consistent cfg w') /\
  (forall question verbose w' r,
     DoclingRAGSystem_query cfg summation embed_ok relevance llm question verbose w = (w', r) ->
     consistent cfg w') /\
  (forall request w' r,
     query_documents cfg summation embed_ok relevance llm request w = (w', r) ->
     consistent cfg w') /\
  (forall w' r, get_status cfg w = (w', r) -> consistent cfg w') /\
  (forall w' r,
     ingest_all_documents cfg convert chunker_chunk embed_ok w = (w', r) ->
     consistent cfg w') /\
  (forall filename w' r, delete_document filename w = (w', r) -> consistent cfg w').
Proof.
  intros Hw. split; [|split; [|split; [|split; [|split]]]].
  - intros file_paths w' r H. exact (proj1 (triple_ingest_documents _ _ _ _ H Hw)).
  - intros q v w' r H. exact (proj1 (triple_DoclingRAGSystem_query _ _ _ _ _ H Hw)).
  - intros q w' r H. exact (proj1 (triple_query_documents _ _ _ _ H Hw)).
  - intros w' r H. exact (proj1 (triple_get_status _ _ _ H Hw)).
  - intros w' r H. exact (proj1 (triple_ingest_all_documents _ _ _ H Hw)).
  - intros f w' r H. exact (proj1 (triple_delete_document _ _ _ _ H Hw)).
Qed.

(** The system as its constructor leaves it is consistent. *)
Lemma constructed_is_consistent w w' :
  DoclingRAGSystem_init cfg w = (w', Ok tt) -> consistent cfg w'.
Proof.
  unfold DoclingRAGSystem_init, Config_validate. run.
  destruct (String.eqb _ _); simpl; intros H; inversion H.
  split; simpl; discriminate.
Qed.

(** X13.  In a consistent state, the sources of a response of
    [DoclingRAGSystem.query] are the chunks the answer was generated from:
    the context of the prompt is made of the texts of the very hits the
    sources list, in the same order, the ten best of the configured
    collection. *)
Theorem sources_are_the_context_of_the_answer
    (question : string) (verbose : bool) (w w' : World) (resp : Response) :
  consistent cfg w ->
  DoclingRAGSystem_query cfg summation embed_ok relevance llm question verbose w = (w', Ok resp) ->
  exists hits,
    sources resp = imap source_info hits /\
    llm (LLM_MODEL cfg) (prompt_format (_format_docs (map fst hits)) question)
      = Ok (answer resp) /\
    hits = take 10 (sort_ranked
                      (map (fun d => (d, relevance question (page_content d)))
                           (default [] (disk w' !! COLLECTION_NAME cfg)))).
Proof.
  intros Hw H. unfold DoclingRAGSystem_query in H.
  apply bind_inv_Ok in H as (w0 & w00 & Hget & H).
  unfold get in Hget. inversion Hget; subst w0 w00; clear Hget.
  apply bind_inv_Ok in H as (w1 & [] & Hinit & H).
  assert (Hw1 : consistent cfg w1).
  { destruct (rag_pipeline w).
    - inversion Hinit; now subst.
    - exact (proj1 (triple_initialize_rag _ _ _ Hinit Hw)). }
  apply bind_inv_Ok in H as (w2 & w0 & Hget & H).
  unfold get in Hget. inversion Hget; subst w2 w0; clear Hget.
  destruct (rag_pipeline w1) as [pipeline|] eqn:Hp; [|discriminate].
  apply (proj2 Hw1) in Hp. subst pipeline.
  apply RAGPipeline_query_inv in H as (handle & hits & answer & Hv & Hs & Hc & -> & ->).
  apply (proj1 Hw1) in Hv. subst handle.
  apply rag_chain_invoke_inv in Hc as (hits' & Hs' & Hllm & _).
  simpl in Hs', Hllm. rewrite Hs in Hs'. inversion Hs'; subst hits'.
  exists hits. repeat split; try assumption.
  now apply search_inv in Hs as [_ ->].
Qed.

End Consistency.

Lemma operations_keep_the_state_consistent_witness :
  consistent Demo.cfg Demo.fresh /\
  forall w' r,
    ingest_documents Demo.cfg Demo.convert Demo.chunker_chunk Demo.embed_ok
      (Some ["docs/a.md"]) Demo.fresh = (w', r) ->
    consistent Demo.cfg w'.
Proof.
  assert (H : consistent Demo.cfg Demo.fresh).
  { split; intros x Hx; discriminate. }
  split; [exact H|].
  destruct (operations_keep_the_state_consistent Demo.cfg Demo.convert Demo.chunker_chunk
              Demo.summation Demo.embed_ok Demo.relevance Demo.llm Demo.fresh H)
    as [Hingest _].
  intros w' r. apply Hingest.
Defined.

Lemma sources_are_the_context_of_the_answer_witness :
  exists resp hits,
    sources resp = imap source_info hits /\
    Demo.llm (LLM_MODEL Demo.cfg) (prompt_format (_format_docs (map fst hits)) "q")
      = Ok (answer resp) /\
    length hits = 10%nat.
Proof.
  assert (Hrun : { out : World * Response |
            DoclingRAGSystem_query Demo.cfg Demo.summation Demo.embed_ok Demo.relevance Demo.llm
              "q" false Demo.opened = (fst out, Ok (snd out)) }).
  { eexists (_, _). reflexivity. }
  destruct Hrun as [[w' resp] Hrun]. simpl in Hrun.
  assert (H : consistent Demo.cfg Demo.opened).
  { split; intros x Hx; [now inversion Hx | discriminate]. }
  destruct (sources_are_the_context_of_the_answer Demo.cfg Demo.summation Demo.embed_ok
              Demo.relevance
              Demo.llm "q" false Demo.opened w' resp H Hrun) as (hits & Hsrc & Hllm & Hhits).
  exists resp, hits. split; [assumption|]. split; [assumption|].
  apply (f_equal (@length _)) in Hsrc. rewrite length_imap in Hsrc. rewrite <- Hsrc.
  clear -Hrun. vm_compute in Hrun. inversion Hrun. reflexivity.
Defined.
